(** * wandb: backend launcher, IPU statistics and the SSL toggle

    A shallow embedding of
      - [wandb/sdk/backend/backend.py]  (module [Backend]),
      - [wandb/sdk/system/assets/ipu.py] (module [IPU]),
      - the environment flag read by [tests/unit_tests/test_ssl.py]
        (module [WandbEnv]),
    together with the properties the design document states about them. *)

From Stdlib Require Import ZArith Floats.
From stdpp Require Import gmap strings list.

Open Scope Z_scope.

(** * Python exceptions and results

    Every exception of the model is an instance of [Exception]; interpreter
    exits such as [KeyboardInterrupt], which derive from [BaseException]
    only, are outside the model. *)

Inductive exn :=
  | AttributeError (msg : string)
  | ValueError (msg : string)
  | OverflowError (msg : string)
  | ZeroDivisionError (msg : string)
  | OSError (msg : string)
  | RuntimeError (msg : string).

(** [str(e)] for an exception built from a single message argument. *)
Definition exn_str (e : exn) : string :=
  match e with
  | AttributeError m | ValueError m | OverflowError m
  | ZeroDivisionError m | OSError m | RuntimeError m => m
  end.

Inductive result (A : Type) :=
  | Ok (a : A)
  | Raise (e : exn).
Arguments Ok {A} a.
Arguments Raise {A} e.

(** * The backend handle *)

Module Backend.

(** ** Data *)

(** Values found in a settings mapping. *)
Inductive PyVal :=
  | VNone
  | VInt (n : Z)
  | VStr (s : string)
  | VObj (handle : nat).

Abbreviation Settings := (gmap string PyVal).

(** [logging.DEBUG] *)
Definition DEBUG : Z := 10.

(** A [multiprocessing.Queue] object is known by its identity. *)
Definition QueueId := nat.

(** The keyword arguments the worker target is called with. *)
Record Kwargs := {
  kw_settings : Settings;
  kw_record_q : QueueId;
  kw_result_q : QueueId;
}.

Inductive WorkerKind := MpProcess | BackendThread.

(** The worker object: either a [multiprocessing.Process], whose [pid] is
    [None] until it is started, or a [BackendThread], whose constructor sets
    [daemon = True] and [pid = 0]. The target is always [wandb_internal]. *)
Record Worker := {
  w_kind : WorkerKind;
  w_kwargs : Kwargs;
  w_name : option string;
  w_daemon : bool;
  w_pid : option Z;
}.

(** [interface.BackendSender(process=..., record_q=..., result_q=...)] *)
Record Sender := {
  s_process : option Worker;
  s_record_q : option QueueId;
  s_result_q : option QueueId;
}.

(** The fields [Backend.__init__] creates. *)
Record Backend := {
  _done : bool;
  record_q : option QueueId;
  result_q : option QueueId;
  wandb_process : option Worker;
  interface : option Sender;
  _internal_pid : option Z;
}.

Definition init : Backend :=
  {| _done := false; record_q := None; result_q := None;
     wandb_process := None; interface := None; _internal_pid := None |}.

(** [sys.modules["__main__"]]: its [__spec__] (absent or [None] is [None]),
    whose [name] may itself be [None], and its [__file__]. *)
Record ModuleSpec := { spec_name : option string }.
Record MainModule := {
  mod_spec : option ModuleSpec;
  mod_file : option string;
}.

(** Calls that leave [backend.py]: the queue, process, thread and sender
    objects and the logger. The trace of a run is the list of the calls it
    made, in order. *)
Inductive Call :=
  | QueueNew (q : QueueId)
  | WorkerNew (k : WorkerKind) (kw : Kwargs)
  | WorkerStart
  | WorkerTerminate
  | WorkerJoin
  | SenderNew
  | SenderJoin
  | QueueClose (q : QueueId)
  | LogStarting
  | LogStarted (pid : option Z).

(** What the process does not decide: whether a call raises, given the calls
    made before it; the process id the operating system gives a started
    child process, a positive number; and the path of the bundled
    [mpmain/__main__.py]. *)
Record Env := {
  raises : list Call → Call → option exn;
  os_pid : positive;
  mpmain_fname : string;
}.

Record World := {
  trace : list Call;
  main_module : MainModule;
  next_queue : QueueId;
}.

Record State := {
  self : Backend;
  world : World;
}.

(** ** State and exceptions *)

Definition M (A : Type) : Type := State → result A * State.

Definition ret {A} (a : A) : M A := λ st, (Ok a, st).
Definition raise {A} (e : exn) : M A := λ st, (Raise e, st).
Definition bind {A B} (m : M A) (k : A → M B) : M B :=
  λ st, match m st with
        | (Ok a, st') => k a st'
        | (Raise e, st') => (Raise e, st')
        end.

#[export] Instance M_ret : MRet M := @ret.
#[export] Instance M_bind : MBind M := λ A B k m, bind m k.

Definition get_self : M Backend := λ st, (Ok (self st), st).
Definition set_self (f : Backend → Backend) : M unit :=
  λ st, (Ok tt, {| self := f (self st); world := world st |}).
Definition get_world : M World := λ st, (Ok (world st), st).
Definition set_world (f : World → World) : M unit :=
  λ st, (Ok tt, {| self := self st; world := f (world st) |}).

Definition record (c : Call) (w : World) : World :=
  {| trace := trace w ++ [c]; main_module := main_module w;
     next_queue := next_queue w |}.

(** [x.attr] where [x] may be [None]. *)
Definition attr_of {A} (o : option A) (attr : string) : M A :=
  match o with
  | Some a => ret a
  | None =>
      raise (AttributeError
               ("'NoneType' object has no attribute '" +:+ attr +:+ "'"))
  end.

Definition set_record_q (q : QueueId) : M unit :=
  set_self (λ b,
    {| _done := _done b; record_q := Some q; result_q := result_q b;
       wandb_process := wandb_process b; interface := interface b;
       _internal_pid := _internal_pid b |}).
Definition set_result_q (q : QueueId) : M unit :=
  set_self (λ b,
    {| _done := _done b; record_q := record_q b; result_q := Some q;
       wandb_process := wandb_process b; interface := interface b;
       _internal_pid := _internal_pid b |}).
Definition set_wandb_process (p : Worker) : M unit :=
  set_self (λ b,
    {| _done := _done b; record_q := record_q b; result_q := result_q b;
       wandb_process := Some p; interface := interface b;
       _internal_pid := _internal_pid b |}).
Definition set_interface (s : Sender) : M unit :=
  set_self (λ b,
    {| _done := _done b; record_q := record_q b; result_q := result_q b;
       wandb_process := wandb_process b; interface := Some s;
       _internal_pid := _internal_pid b |}).
Definition set_internal_pid (pid : option Z) : M unit :=
  set_self (λ b,
    {| _done := _done b; record_q := record_q b; result_q := result_q b;
       wandb_process := wandb_process b; interface := interface b;
       _internal_pid := pid |}).
Definition set_done : M unit :=
  set_self (λ b,
    {| _done := true; record_q := record_q b; result_q := result_q b;
       wandb_process := wandb_process b; interface := interface b;
       _internal_pid := _internal_pid b |}).

Definition set_main_module (m : MainModule) : M unit :=
  set_world (λ w, {| trace := trace w; main_module := m;
                     next_queue := next_queue w |}).

(** [main_module.__spec__.name = v] *)
Definition set_spec_name (v : string) : M unit :=
  w ← get_world;
  _ ← attr_of (mod_spec (main_module w)) "name";
  set_main_module {| mod_spec := Some {| spec_name := Some v |};
                     mod_file := mod_file (main_module w) |}.

(** [main_module.__file__ = v] *)
Definition set_file (v : string) : M unit :=
  w ← get_world;
  set_main_module {| mod_spec := mod_spec (main_module w);
                     mod_file := Some v |}.

(** [self.wandb_process.name = v] *)
Definition set_name (v : string) : M unit :=
  b ← get_self;
  p ← attr_of (wandb_process b) "name";
  set_wandb_process
    {| w_kind := w_kind p; w_kwargs := w_kwargs p; w_name := Some v;
       w_daemon := w_daemon p; w_pid := w_pid p |}.

Section WithEnv.
Variable env : Env.

(** An outside call: it is recorded, and raises or returns as the
    environment decides. *)
Definition call (c : Call) : M unit :=
  λ st,
    let st' := {| self := self st; world := record c (world st) |} in
    match raises env (trace (world st)) c with
    | Some e => (Raise e, st')
    | None => (Ok tt, st')
    end.

(** [logger.info]: recorded, never raises. *)
Definition log (c : Call) : M unit := set_world (record c).

(** [self._wl._multiprocessing.Queue()] *)
Definition Queue : M QueueId :=
  w ← get_world;
  let q := next_queue w in
  call (QueueNew q);;
  set_world (λ w, {| trace := trace w; main_module := main_module w;
                     next_queue := S q |});;
  ret q.

(** [process_class(target=wandb_internal, kwargs=...)] *)
Definition new_worker (k : WorkerKind) (kw : Kwargs) : M Worker :=
  call (WorkerNew k kw);;
  ret match k with
      | MpProcess =>
          {| w_kind := MpProcess; w_kwargs := kw; w_name := None;
             w_daemon := false; w_pid := None |}
      | BackendThread =>
          {| w_kind := BackendThread; w_kwargs := kw; w_name := None;
             w_daemon := true; w_pid := Some 0 |}
      end.

(** [self.wandb_process.start()]: a started process has the process id the
    operating system gave it; a thread keeps the [pid] of its constructor. *)
Definition start : M unit :=
  b ← get_self;
  p ← attr_of (wandb_process b) "start";
  call WorkerStart;;
  match w_kind p with
  | MpProcess =>
      set_wandb_process
        {| w_kind := w_kind p; w_kwargs := w_kwargs p; w_name := w_name p;
           w_daemon := w_daemon p; w_pid := Some (Z.pos (os_pid env)) |}
  | BackendThread => ret tt
  end.

(** [self.wandb_process.terminate()]: [multiprocessing.Process] has the
    method; [BackendThread] defines only [__init__] and [run], and
    [threading.Thread] has no [terminate]. *)
Definition terminate : M unit :=
  b ← get_self;
  p ← attr_of (wandb_process b) "terminate";
  match w_kind p with
  | MpProcess => call WorkerTerminate
  | BackendThread =>
      raise (AttributeError
               "'BackendThread' object has no attribute 'terminate'")
  end.

(** [log_level or logging.DEBUG] *)
Definition log_level_or_debug (log_level : option Z) : Z :=
  match log_level with
  | Some l => if l =? 0 then DEBUG else l
  | None => DEBUG
  end.

(** The first lines of [ensure_launched]: the mapping handed to the worker. *)
Definition worker_settings (settings : option Settings) (log_level : option Z)
  : Settings :=
  let settings := default ∅ settings in
  let settings := <["_log_level" := VInt (log_level_or_debug log_level)]> settings in
  if decide ("_early_logger" ∈ dom settings)
  then delete "_early_logger" settings
  else settings.

(** [settings.get("start_method") != "thread"] *)
Definition not_thread (settings : Settings) : bool :=
  match settings !! "start_method" with
  | Some (VStr s) => negb (String.eqb s "thread")
  | _ => true
  end.

(** Truth value of a saved name or path: [None] and [""] are false. *)
Definition truthy (o : option string) : bool :=
  match o with
  | Some s => negb (String.eqb s "")
  | None => false
  end.

Definition ensure_launched (settings : option Settings) (log_level : option Z)
  : M unit :=
  let settings := worker_settings settings log_level in
  rq ← Queue;
  set_record_q rq;;
  sq ← Queue;
  set_result_q sq;;
  let process_class := if not_thread settings then MpProcess else BackendThread in
  let kw := {| kw_settings := settings; kw_record_q := rq; kw_result_q := sq |} in
  p ← new_worker process_class kw;
  set_wandb_process p;;
  set_name "wandb_internal";;
  (* Support running code without a: __name__ == "__main__" *)
  w ← get_world;
  let main_mod_spec := mod_spec (main_module w) in
  let main_mod_path := mod_file (main_module w) in
  let main_mod_name :=
    match main_mod_spec with
    | Some sp => spec_name sp
    | None => None
    end in
  saved ←
    match main_mod_name, main_mod_path with
    | Some name, _ =>
        set_spec_name "wandb.mpmain";;
        ret (Some name, None)
    | None, Some path =>
        set_file (mpmain_fname env);;
        ret (None, Some path)
    | None, None => ret (None, None)
    end;
  let save_mod_name : option string := saved.1 in
  let save_mod_path : option string := saved.2 in
  log LogStarting;;
  start;;
  b ← get_self;
  p ← attr_of (wandb_process b) "pid";
  set_internal_pid (w_pid p);;
  log (LogStarted (w_pid p));;
  (* Undo temporary changes from: __name__ == "__main__" *)
  (if truthy save_mod_name then set_spec_name (default "" save_mod_name)
   else if truthy save_mod_path then set_file (default "" save_mod_path)
   else ret tt);;
  b ← get_self;
  call SenderNew;;
  set_interface {| s_process := wandb_process b; s_record_q := record_q b;
                   s_result_q := result_q b |}.

Definition cleanup : M unit :=
  b ← get_self;
  if _done b then ret tt
  else
    set_done;;
    b ← get_self;
    _ ← attr_of (interface b) "join";
    call SenderJoin;;
    _ ← attr_of (wandb_process b) "join";
    call WorkerJoin;;
    rq ← attr_of (record_q b) "close";
    call (QueueClose rq);;
    sq ← attr_of (result_q b) "close";
    call (QueueClose sq).

Definition abort : M unit :=
  terminate;;
  cleanup.

End WithEnv.

(** ** Vocabulary of the properties *)

(** The environment in which no call raises. *)
Definition quiet : Env :=
  {| raises := λ _ _, None; os_pid := 4242%positive;
     mpmain_fname := "/site-packages/wandb/mpmain/__main__.py" |}.

Definition script : MainModule :=
  {| mod_spec := None; mod_file := Some "train.py" |}.

Definition fresh (m : MainModule) : State :=
  {| self := init;
     world := {| trace := []; main_module := m; next_queue := 0%nat |} |}.

(** A handle that has been launched and not torn down. *)
Definition launched (b : Backend) (rq sq : QueueId) : Prop :=
  _done b = false ∧ record_q b = Some rq ∧ result_q b = Some sq ∧ rq ≠ sq ∧
  is_Some (wandb_process b) ∧ is_Some (interface b).

(** The steps of a graceful teardown. *)
Definition cleanup_steps (rq sq : QueueId) : list Call :=
  [SenderJoin; WorkerJoin; QueueClose rq; QueueClose sq].

Inductive Op := OpCleanup | OpAbort.

Definition exec (env : Env) (op : Op) : M unit :=
  match op with
  | OpCleanup => cleanup env
  | OpAbort => abort env
  end.

(** A caller that issues the calls one after the other, whatever each of
    them returns or raises. *)
Fixpoint run (env : Env) (ops : list Op) (st : State) : State :=
  match ops with
  | [] => st
  | op :: ops => run env ops (exec env op st).2
  end.

Definition is_close (q : QueueId) (c : Call) : bool :=
  match c with
  | QueueClose q' => bool_decide (q' = q)
  | _ => false
  end.

(** How often [close] was called on queue [q]. *)
Definition closes (q : QueueId) (tr : list Call) : nat :=
  length (List.filter (is_close q) tr).

(** How many of the calls are [abort]. *)
Definition aborts (ops : list Op) : nat :=
  length (List.filter (λ op, match op with
                             | OpAbort => true
                             | OpCleanup => false
                             end) ops).

(** The [terminate] calls a sequence of teardown calls makes on a worker:
    one for each [abort] when the worker is a process, none when it is a
    thread, which has no [terminate]. *)
Definition terminates (p : Worker) (ops : list Op) : nat :=
  match w_kind p with
  | MpProcess => aborts ops
  | BackendThread => 0%nat
  end.

(** After teardown a call changes nothing on the handle and adds nothing
    to the trace but [terminate] calls. *)
Definition only_terminates (st st' : State) : Prop :=
  self st' = self st ∧
  ∃ n, trace (world st') = trace (world st) ++ replicate n WorkerTerminate.

(** The attribute of the entry module that [ensure_launched] rewrites: the
    spec name when there is one, else the file path when there is one. *)
Definition rewritten (m : MainModule) : option string :=
  match mod_spec m with
  | Some {| spec_name := Some name |} => Some name
  | _ => mod_file m
  end.

(** Calls that allocate a queue or create the worker. *)
Definition is_creation (c : Call) : bool :=
  match c with
  | QueueNew _ | WorkerNew _ _ => true
  | _ => false
  end.

(** The calls of a launch that runs to its end. *)
Definition launch_calls (env : Env) (settings : option Settings)
    (ll : option Z) (nq : QueueId) : list Call :=
  let ws := worker_settings settings ll in
  let k := if not_thread ws then MpProcess else BackendThread in
  let pid := if not_thread ws then Some (Z.pos (os_pid env)) else Some 0 in
  [QueueNew nq; QueueNew (S nq);
   WorkerNew k {| kw_settings := ws; kw_record_q := nq; kw_result_q := S nq |};
   LogStarting; WorkerStart; LogStarted pid; SenderNew].

(** ** Concrete environments and entry modules *)

(** A program run as [python -m app.train]. *)
Definition package_main : MainModule :=
  {| mod_spec := Some {| spec_name := Some "app.train" |};
     mod_file := Some "/src/app/train.py" |}.

(** The start call of the worker fails. *)
Definition start_fails : Env :=
  {| raises := λ _ c, match c with
                      | WorkerStart => Some (OSError "spawn failed")
                      | _ => None
                      end;
     os_pid := 4242%positive;
     mpmain_fname := "/site-packages/wandb/mpmain/__main__.py" |}.

(** The allocation of the second queue fails. *)
Definition second_queue_fails : Env :=
  {| raises := λ _ c, match c with
                      | QueueNew (S O) => Some (OSError "too many open files")
                      | _ => None
                      end;
     os_pid := 4242%positive;
     mpmain_fname := "/site-packages/wandb/mpmain/__main__.py" |}.

Definition thread_settings : Settings := {[ "start_method" := VStr "thread" ]}.

End Backend.

(** * IPU statistics *)

Module IPU.

(** ** Numbers

    A metric value is a Python [int] or a Python [float], a binary64 number.
    Integers are exact; the operations on floats are those of IEEE 754,
    rounding to nearest, ties to even. *)

Inductive PyNum :=
  | PInt (n : Z)
  | PFloat (f : float).

#[export] Instance result_ret : MRet result := @Ok.
#[export] Instance result_bind : MBind result :=
  λ A B k m, match m with
             | Ok a => k a
             | Raise e => Raise e
             end.

(** The float nearest to an integer. *)
Definition float_of_Z (z : Z) : float :=
  SF2Prim (binary_normalize prec emax z 0 false).

(** [float(n)] for an [int]: an integer beyond the range of the floats
    raises. *)
Definition py_float_of_int (z : Z) : result float :=
  let f := float_of_Z z in
  if is_infinity f
  then Raise (OverflowError "int too large to convert to float")
  else Ok f.

(** [a + b] *)
Definition py_add (a b : PyNum) : result PyNum :=
  match a, b with
  | PInt x, PInt y => Ok (PInt (x + y))
  | PInt x, PFloat g => f ← py_float_of_int x; Ok (PFloat (f + g))
  | PFloat f, PInt y => g ← py_float_of_int y; Ok (PFloat (f + g))
  | PFloat f, PFloat g => Ok (PFloat (f + g))
  end.

(** [sum(l)]: the items are added from the left, starting from the integer
    0. *)
Fixpoint sum_from (acc : PyNum) (l : list PyNum) : result PyNum :=
  match l with
  | [] => Ok acc
  | x :: l => acc ← py_add acc x; sum_from acc l
  end.

Definition py_sum (l : list PyNum) : result PyNum := sum_from (PInt 0) l.

(** [x / n] for two integers, [n] positive: the float nearest to the
    quotient. *)
Definition int_truediv (x : Z) (n : positive) : result PyNum :=
  let q :=
    match x with
    | Z0 => S754_zero false
    | Zpos p => SFdiv prec emax (S754_finite false p 0) (S754_finite false n 0)
    | Zneg p => SFdiv prec emax (S754_finite true p 0) (S754_finite false n 0)
    end in
  if is_infinity (SF2Prim q)
  then Raise (OverflowError "integer division result too large for a float")
  else Ok (PFloat (SF2Prim q)).

(** [a / len(l)]: the divisor is the length of a list. *)
Definition py_truediv (a : PyNum) (n : nat) : result PyNum :=
  match n with
  | O =>
      Raise (ZeroDivisionError
               match a with
               | PInt _ => "division by zero"
               | PFloat _ => "float division by zero"
               end)
  | S _ =>
      match a with
      | PInt x => int_truediv x (Pos.of_nat n)
      | PFloat f => Ok (PFloat (f / float_of_Z (Z.of_nat n)))
      end
  end.

(** The integer nearest to [100 * m * 2^e], ties to even. *)
Definition round_half_even_100 (m e : Z) : Z :=
  if 0 <=? e then 100 * m * 2 ^ e
  else
    let d := 2 ^ (- e) in
    let q := (100 * m) / d in
    let r := (100 * m) mod d in
    if 2 * r <? d then q
    else if d <? 2 * r then q + 1
    else if Z.even q then q else q + 1.

(** [round(f, 2)] for a float: the exact value of [f] is rounded to two
    decimals, ties to even, and the result is the float nearest to that
    decimal number. Zeros, infinities and NaN round to themselves. *)
Definition float_round2 (f : float) : float :=
  match Prim2SF f with
  | S754_finite s m e =>
      match round_half_even_100 (Z.pos m) e with
      | Zpos k =>
          SF2Prim (SFdiv prec emax (S754_finite s k 0) (S754_finite false 100 0))
      | _ => if s then neg_zero else zero
      end
  | _ => f
  end.

(** [round(a, 2)]: an [int] is returned as it is. *)
Definition py_round2 (a : PyNum) : PyNum :=
  match a with
  | PInt z => PInt z
  | PFloat f => PFloat (float_round2 f)
  end.

(** [float_value.is_integer()] and [int(float_value)] *)
Definition float_to_int (f : float) : option Z :=
  match Prim2SF f with
  | S754_zero _ => Some 0
  | S754_finite s m e =>
      let a :=
        if 0 <=? e then Some (Z.pos m * 2 ^ e)
        else if (Z.pos m) mod 2 ^ (- e) =? 0
             then Some (Z.pos m / 2 ^ (- e))
             else None in
      (λ v, if s then - v else v) <$> a
  | _ => None
  end.

(** ** Strings *)

(** A [str] is held as the bytes of its UTF-8 encoding. The suffixes that
    [parse_metric] tests and cuts off are ASCII, and it cuts one off only
    from a value that ends with it: there a byte is a character. *)

(** [s.endswith(suffix)] *)
Definition endswith (s suffix : string) : bool :=
  let n := String.length s in
  let m := String.length suffix in
  (m <=? n)%nat && String.eqb (String.substring (n - m) m s) suffix.

(** [s[:-k]] for a positive [k] *)
Definition drop_last (k : nat) (s : string) : string :=
  String.substring 0 (String.length s - k) s.

(** ** The sampler *)

Abbreviation Sample := (gmap string PyNum).

(** A device as [dict(device)] has it: its items in insertion order, the
    keys distinct. *)
Definition Device := list (string * string).

(** [device_metrics.get(key)] *)
Fixpoint get (d : Device) (key : string) : option string :=
  match d with
  | [] => None
  | (k, v) :: d => if String.eqb k key then Some v else get d key
  end.

Record IPUStats := {
  samples : list Sample;
  _pid : Z;
  _devices_called : gset string;
}.

Definition variable_metric_keys : gset string :=
  {[ "average board temp"; "average die temp"; "clock"; "ipu power";
     "ipu utilisation"; "ipu utilisation (session)" ]}.

Definition metric_suffixes : list (string * string) :=
  [("temp", "C"); ("clock", "MHz"); ("power", "W"); ("utilisation", "%");
   ("utilisation (session)", "%"); ("speed", "GT/s")].

(** The terminal: the lines printed so far and the messages already seen. *)
Record Term := {
  printed : list string;
  seen : gset string;
}.

(** Modelled from the spec: [wandb.termwarn] is not among the sources. With
    [repeat=False] it is the rate-limited warning of the design document: a
    message that was printed before is not printed again. *)
Definition termwarn (msg : string) (repeat : bool) (t : Term) : Term :=
  if negb repeat && bool_decide (msg ∈ seen t) then t
  else {| printed := printed t ++ [msg]; seen := {[ msg ]} ∪ seen t |}.

(** [try: body except Exception as e: handler(e)] over a state. *)
Definition try_except {S A} (body : S → result A * S)
    (handler : exn → S → result A * S) : S → result A * S :=
  λ s, match body s with
       | (Ok a, s') => (Ok a, s')
       | (Raise e, s') => handler e s'
       end.

Section Sampler.

(** [int(s)] and [float(s)] for a string; [None] when they raise
    [ValueError]. *)
Variable py_int : string → option Z.
Variable py_float : string → option float.

Definition parse_metric (key value : string) : option (string * PyNum) :=
  let '(key, value) :=
    foldl (λ '(key, value) '(metric, suffix),
             if endswith key metric && endswith value suffix
             then (key +:+ " (" +:+ suffix +:+ ")",
                   drop_last (String.length suffix) value)
             else (key, value))
          (key, value) metric_suffixes in
  match py_float value with
  | Some float_value =>
      Some (key, match float_to_int float_value with
                 | Some n => PInt n
                 | None => PFloat float_value
                 end)
  | None => None
  end.

(** ["ipu.{}.{}".format(device_id, parsed_key)] *)
Definition name_format (device_id : option string) (parsed_key : string)
  : string :=
  "ipu." +:+ default "None" device_id +:+ "." +:+ parsed_key.

(** The loop over the items of one device. *)
Fixpoint sample_metrics (device_id : option string) (initial_call : bool)
    (items : Device) (stats : Sample) : Sample :=
  match items with
  | [] => stats
  | (key, value) :: items =>
      let log_metric :=
        initial_call || bool_decide (key ∈ variable_metric_keys) in
      if negb log_metric then
        sample_metrics device_id initial_call items stats
      else
        match parse_metric key value with
        | None => sample_metrics device_id initial_call items stats
        | Some (parsed_key, parsed_value) =>
            sample_metrics device_id initial_call items
              (<[name_format device_id parsed_key := parsed_value]> stats)
        end
  end.

(** The loop over the devices. The set of devices seen is updated in place,
    so it keeps its additions when a later device makes the loop raise. *)
Fixpoint sample_devices (devices : list Device) (stats : Sample)
    (self : IPUStats) : result Sample * IPUStats :=
  match devices with
  | [] => (Ok stats, self)
  | device_metrics :: devices =>
      match get device_metrics "user process id" with
      | None => sample_devices devices stats self
      | Some pid =>
          match py_int pid with
          | None =>
              (Raise (ValueError
                        ("invalid literal for int() with base 10: '" +:+ pid
                         +:+ "'")), self)
          | Some n =>
              if negb (n =? _pid self) then sample_devices devices stats self
              else
                let device_id := get device_metrics "id" in
                let initial_call :=
                  match device_id with
                  | Some id => negb (bool_decide (id ∈ _devices_called self))
                  | None => true
                  end in
                let self :=
                  match device_id with
                  | Some id =>
                      {| samples := samples self; _pid := _pid self;
                         _devices_called := {[ id ]} ∪ _devices_called self |}
                  | None => self
                  end in
                sample_devices devices
                  (sample_metrics device_id initial_call device_metrics stats)
                  self
          end
      end
  end.

(** The body of the [try] in [sample]; [devices] is what
    [self._gc_ipu_info.getDevices()] returns or raises. *)
Definition sample_body (devices : result (list Device))
  : IPUStats * Term → result unit * (IPUStats * Term) :=
  λ '(self, t),
    match devices with
    | Raise e => (Raise e, (self, t))
    | Ok devices =>
        match sample_devices devices ∅ self with
        | (Ok stats, self) =>
            (Ok tt, ({| samples := samples self ++ [stats]; _pid := _pid self;
                        _devices_called := _devices_called self |}, t))
        | (Raise e, self) => (Raise e, (self, t))
        end
    end.

Definition sample (devices : result (list Device))
  : IPUStats * Term → result unit * (IPUStats * Term) :=
  try_except (sample_body devices)
    (λ e '(self, t),
       (Ok tt, (self, termwarn ("IPU stats error " +:+ exn_str e) false t))).

End Sampler.


(** ** Aggregation *)

(** [[s[key] for s in self.samples if key in s]] *)
Definition values_of (key : string) (samples : list Sample) : list PyNum :=
  omap (λ s : Sample, s !! key) samples.

(** [round(sum(samples) / len(samples), 2)] *)
Definition aggregate (vals : list PyNum) : result PyNum :=
  total ← py_sum vals;
  mean ← py_truediv total (length vals);
  Ok (py_round2 mean).

(** The loop of [serialize] over the keys of the first sample. *)
Fixpoint serialize_loop (samples : list Sample) (keys : list string)
    (stats : Sample) : result Sample :=
  match keys with
  | [] => Ok stats
  | key :: keys =>
      agg ← aggregate (values_of key samples);
      serialize_loop samples keys (<[key := agg]> stats)
  end.

Definition serialize (samples : list Sample) : result Sample :=
  match samples with
  | [] => Ok ∅
  | first :: _ => serialize_loop samples (elements (dom first)) ∅
  end.

(** ** Concrete buffers *)

Definition temp_samples : list Sample :=
  [ {[ "x.temp (C)" := PInt 10 ]}; {[ "x.temp (C)" := PInt 20 ]};
    {[ "x.temp (C)" := PInt 30 ]} ].

Definition late_key_samples : list Sample :=
  [ {[ "a" := PInt 1 ]}; {[ "a" := PInt 2; "b" := PInt 5 ]} ].

End IPU.

(** * The transport security toggle *)

Module WandbEnv.

(** Modelled from the spec: [wandb.env.ssl_disabled] is not among the
    sources, only its test is. The flag WANDB_INSECURE_DISABLE_SSL disables
    certificate verification when its value is, whatever the case of its
    letters, the string "true"; every other value, and the absence of the
    flag, leave verification on. *)

Definition lower_ascii (c : Ascii.ascii) : Ascii.ascii :=
  let n := Ascii.nat_of_ascii c in
  if (65 <=? n)%nat && (n <=? 90)%nat then Ascii.ascii_of_nat (n + 32) else c.

Fixpoint lower (s : string) : string :=
  match s with
  | EmptyString => EmptyString
  | String c s => String (lower_ascii c) (lower s)
  end.

Definition INSECURE_DISABLE_SSL : string := "WANDB_INSECURE_DISABLE_SSL".

Definition ssl_disabled (environ : gmap string string) : bool :=
  match environ !! INSECURE_DISABLE_SSL with
  | Some value => String.eqb (lower value) "true"
  | None => false
  end.

End WandbEnv.

(** * Further vocabulary of the backend handle *)

Module BackendVocab.
Import Backend.

(** The entry module as [ensure_launched] leaves it for the start call. *)
Definition substituted (env : Env) (m : MainModule) : MainModule :=
  match mod_spec m with
  | Some {| spec_name := Some _ |} =>
      {| mod_spec := Some {| spec_name := Some "wandb.mpmain" |};
         mod_file := mod_file m |}
  | _ =>
      match mod_file m with
      | Some _ =>
          {| mod_spec := mod_spec m; mod_file := Some (mpmain_fname env) |}
      | None => m
      end
  end.

(** The first outside call of [cleanup] fails. *)
Definition join_fails : Env :=
  {| raises := λ _ c, match c with
                      | SenderJoin => Some (RuntimeError "broken pipe")
                      | _ => None
                      end;
     os_pid := 4242%positive;
     mpmain_fname := "/site-packages/wandb/mpmain/__main__.py" |}.

(** How often the worker was started, and how often it was joined. *)
Definition starts (tr : list Call) : nat :=
  length (List.filter (λ c, match c with WorkerStart => true | _ => false end) tr).
Definition joins (tr : list Call) : nat :=
  length (List.filter (λ c, match c with WorkerJoin => true | _ => false end) tr).

End BackendVocab.

(** * Further vocabulary of the IPU statistics *)

Module IPUVocab.
Import IPU.

(** A device that is not used by the process with id [pid]: it names no
    process, or another one. *)
Definition foreign (py_int : string → option Z) (pid : Z) (d : Device)
  : Prop :=
  match get d "user process id" with
  | None => True
  | Some s => ∃ n, py_int s = Some n ∧ n ≠ pid
  end.

(** A buffer in which every value is a float. *)
Definition all_floats (samples : list Sample) : Prop :=
  ∀ s key v, s ∈ samples → s !! key = Some v → ∃ f, v = PFloat f.

(** Every key of the mapping begins with "ipu.". *)
Definition ipu_keys (stats : Sample) : Prop :=
  map_Forall (λ (k : string) (_ : PyNum), ∃ rest, k = "ipu." +:+ rest) stats.


End IPUVocab.

(** * The printers *)

Module Printer.

(** A [str] is held as the bytes of its UTF-8 encoding. *)

(** The bytes [0x80] to [0xBF], which continue a code point begun by an
    earlier byte. *)
Definition is_continuation (c : Ascii.ascii) : bool :=
  match c with
  | Ascii.Ascii _ _ _ _ _ _ b6 b7 => b7 && negb b6
  end.

(** [len(s)]: the number of code points of [s], one for each byte that is
    not a continuation byte. *)
Fixpoint len (s : string) : nat :=
  match s with
  | EmptyString => 0
  | String c s => if is_continuation c then len s else S (len s)
  end.

(** The line feed. *)
Definition LF : string := String (Ascii.ascii_of_nat 10) "".

(** [sep.join(l)] *)
Definition join (sep : string) (l : list string) : string :=
  String.concat sep l.

(** What a printer hands to the terminal or to the notebook. *)
Inductive Out :=
  | Termlog (text : string) (newline : bool)
  | Termwarn (text : string)
  | Termerror (text : string)
  | DisplayHtml (html : string).

(** The buffers of [_Printer]. *)
Record Buffers := {
  _info : list string;
  _warnings : list string;
  _errors : list string;
}.

(** A non-empty list is true. *)
Definition nonempty {A} (l : list A) : bool :=
  match l with
  | [] => false
  | _ => true
  end.

(** [PrinterTerm.display] *)
Definition display_term (self : Buffers) : list Out * Buffers :=
  let '(out, self) :=
    if nonempty (_info self)
    then ([Termlog (join LF (_info self)) true],
          {| _info := []; _warnings := _warnings self;
             _errors := _errors self |})
    else ([], self) in
  let '(out, self) :=
    if nonempty (_warnings self)
    then (out ++ [Termwarn (join LF (_warnings self))],
          {| _info := _info self; _warnings := []; _errors := _errors self |})
    else (out, self) in
  if nonempty (_errors self)
  then (out ++ [Termerror (join LF (_errors self))],
        {| _info := _info self; _warnings := _warnings self; _errors := [] |})
  else (out, self).

(** [PrinterJupyter.display] *)
Definition display_jupyter (self : Buffers) : list Out * Buffers :=
  let '(out, self) :=
    if nonempty (_info self)
    then ([DisplayHtml (join "<br/>" (_info self))],
          {| _info := []; _warnings := _warnings self;
             _errors := _errors self |})
    else ([], self) in
  let '(out, self) :=
    if nonempty (_warnings self)
    then (out ++ [DisplayHtml (join "<br/>" (_warnings self))],
          {| _info := _info self; _warnings := []; _errors := _errors self |})
    else (out, self) in
  if nonempty (_errors self)
  then (out ++ [DisplayHtml (join "<br/>" (_errors self))],
        {| _info := _info self; _warnings := _warnings self; _errors := [] |})
  else (out, self).

(** [itertools.cycle(["-", "\\", "|", "/"])]: the symbols, and how many of
    them were taken so far. *)
Definition spinner : list string := ["-"; "\"; "|"; "/"].

(** [next(self._progress)] *)
Definition next_progress (taken : nat) : string * nat :=
  (default "" (spinner !! (taken mod length spinner)%nat), S taken).

(** [PrinterTerm.progress_update] *)
Definition progress_update (text : string) (taken : nat) : Out * nat :=
  let '(symbol, taken) := next_progress taken in
  (Termlog (symbol +:+ " " +:+ text) false, taken).

(** A sequence of updates. *)
Fixpoint progress_updates (texts : list string) (taken : nat) : list Out :=
  match texts with
  | [] => []
  | text :: texts =>
      let '(out, taken) := progress_update text taken in
      out :: progress_updates texts taken
  end.

(** ** Grids *)

Inductive grid_error :=
  | MaxOfEmpty      (* ValueError: max() arg is an empty sequence *)
  | IndexOutOfRange (* IndexError *).

Inductive outcome (A : Type) :=
  | Returns (a : A)
  | Fails (e : grid_error).
Arguments Returns {A} a.
Arguments Fails {A} e.

#[export] Instance outcome_ret : MRet outcome := @Returns.
#[export] Instance outcome_bind : MBind outcome :=
  λ A B k m, match m with
             | Returns a => k a
             | Fails e => Fails e
             end.

(** A list comprehension whose element expression may raise. *)
Fixpoint comprehension {A B} (f : A → outcome B) (l : list A)
  : outcome (list B) :=
  match l with
  | [] => Returns []
  | x :: l => y ← f x; ys ← comprehension f l; Returns (y :: ys)
  end.

(** [row[0]] *)
Definition first_cell (row : list string) : outcome string :=
  match row with
  | cell :: _ => Returns cell
  | [] => Fails IndexOutOfRange
  end.

(** [max(l)] *)
Definition py_max (l : list nat) : outcome nat :=
  match l with
  | [] => Fails MaxOfEmpty
  | n :: l => Returns (foldl Nat.max n l)
  end.

(** ["{:>{max_len}}".format(cell, max_len=max_len)] *)
Definition rjust (max_len : nat) (cell : string) : string :=
  join "" (replicate (max_len - len cell) " ") +:+ cell.

(** [format_row.format( *row, max_len=max_len)] where [format_row] is
    ["{:>{max_len}}"], a space, and [n - 1] fields ["{}"]: the row must
    have [n] cells at least, and further cells are not used. *)
Definition format_term_row (max_len n : nat) (row : list string)
  : outcome string :=
  if (length row <? n)%nat then Fails IndexOutOfRange
  else
    match row with
    | cell :: cells =>
        Returns (rjust max_len cell +:+ " " +:+ join "" (take (n - 1) cells))
    | [] => Fails IndexOutOfRange
    end.

(** Truth of an optional title: [None] and the empty string are false. *)
Definition title_given (title : option string) : option string :=
  match title with
  | Some "" | None => None
  | Some t => Some t
  end.

(** [PrinterTerm.grid] *)
Definition grid_term (rows : list (list string)) (title : option string)
  : outcome string :=
  lens ← comprehension (λ row, cell ← first_cell row;
                               Returns (len cell)) rows;
  max_len ← py_max lens;
  let n := length (default [] (rows !! 0%nat)) in
  lines ← comprehension (format_term_row max_len n) rows;
  let grid := join LF lines in
  Returns match title_given title with
          | Some title => title +:+ LF +:+ grid +:+ LF
          | None => grid +:+ LF
          end.

End Printer.

(** * Vocabulary of the printers *)

Module PrinterVocab.
Import Printer.

Definition no_buffers : Buffers :=
  {| _info := []; _warnings := []; _errors := [] |}.

(** How many of the three buffers hold a line. *)
Definition filled (self : Buffers) : nat :=
  (if nonempty (_info self) then 1 else 0) +
  (if nonempty (_warnings self) then 1 else 0) +
  (if nonempty (_errors self) then 1 else 0).

(** A row that [grid] can format after a first row of [n] cells. *)
Definition row_fits (n : nat) (row : list string) : Prop :=
  row ≠ [] ∧ (n ≤ length row)%nat.

(** A line of the grid for a row: the first cell after as many spaces as
    it is shorter than [w], a space, and the next [n - 1] cells one after
    the other. *)
Definition aligned (w n : nat) (row : list string) (line : string) : Prop :=
  ∃ cell cells,
    row = cell :: cells ∧ (len cell ≤ w)%nat ∧
    line = (join "" (replicate (w - len cell) " ") +:+ cell)
           +:+ " " +:+ join "" (take (n - 1) cells).

(** The width of the first column: the length of the longest first cell. *)
Definition first_width (first : list string) (rest : list (list string))
  : nat :=
  foldl Nat.max (len (default "" (head first)))
    ((λ row, len (default "" (head row))) <$> rest).

End PrinterVocab.

(** * Properties of the backend handle *)

Module BackendFacts.
Import Backend.

Ltac unfold_m :=
  cbv [mbind mret M_bind M_ret bind ret raise get_self set_self get_world
       set_world attr_of call log set_done set_record_q set_result_q
       set_wandb_process set_interface set_internal_pid set_main_module
       set_spec_name set_file set_name] in *.

Lemma cleanup_done env st :
  _done (self st) = true → cleanup env st = (Ok tt, st).
Proof. intros H. unfold cleanup. unfold_m. by rewrite H. Qed.

Lemma only_terminates_refl st : only_terminates st st.
Proof. split; [done|]. exists 0%nat. by rewrite app_nil_r. Qed.

Lemma only_terminates_trans st1 st2 st3 :
  only_terminates st1 st2 → only_terminates st2 st3 → only_terminates st1 st3.
Proof.
  intros [Hs1 [n Hn]] [Hs2 [m Hm]]. split; [congruence|].
  exists (n + m)%nat. by rewrite Hm, Hn, replicate_add, app_assoc.
Qed.

Lemma exec_done env op st :
  _done (self st) = true → only_terminates st (exec env op st).2.
Proof.
  intros Hd. destruct op; simpl.
  - rewrite cleanup_done by done. apply only_terminates_refl.
  - unfold abort, terminate. unfold_m.
    destruct (wandb_process (self st)) as [p|]; simpl;
      [|apply only_terminates_refl].
    destruct (w_kind p); simpl; [|apply only_terminates_refl].
    destruct (raises env _ _); simpl.
    + split; [done|]. by exists 1%nat.
    + rewrite cleanup_done by done. split; [done|]. by exists 1%nat.
Qed.

Lemma run_done env ops st :
  _done (self st) = true → only_terminates st (run env ops st).
Proof.
  revert st. induction ops as [|op ops IH]; intros st Hd; simpl.
  - apply only_terminates_refl.
  - pose proof (exec_done env op st Hd) as H1.
    eapply only_terminates_trans; [exact H1|]. apply IH.
    destruct H1 as [-> _]. done.
Qed.

Lemma closes_app q tr1 tr2 :
  closes q (tr1 ++ tr2) = (closes q tr1 + closes q tr2)%nat.
Proof. unfold closes. by rewrite List.filter_app, length_app. Qed.

Lemma closes_terminates q n : closes q (replicate n WorkerTerminate) = 0%nat.
Proof. induction n as [|n IH]; [done|]. exact IH. Qed.

Lemma cleanup_launched env st rq sq :
  launched (self st) rq sq →
  ∃ steps,
    trace (world (cleanup env st).2) = trace (world st) ++ steps ∧
    steps `prefix_of` cleanup_steps rq sq ∧
    ((cleanup env st).1 = Ok tt → steps = cleanup_steps rq sq) ∧
    ((∀ tr c, c ∈ cleanup_steps rq sq → raises env tr c = None) →
     (cleanup env st).1 = Ok tt) ∧
    _done (self (cleanup env st).2) = true.
Proof.
  intros (Hd & Hrq & Hsq & _ & [p Hp] & [s Hs]).
  unfold cleanup, cleanup_steps. unfold_m. rewrite Hd. simpl.
  rewrite Hs, Hp, Hrq, Hsq. simpl.
  destruct (raises env (trace (world st)) SenderJoin) eqn:E1; simpl.
  { exists [SenderJoin]. split_and!; try done.
    - by eexists.
    - intros H. rewrite H in E1; [done | set_solver]. }
  destruct (raises env (trace (world st) ++ [SenderJoin]) WorkerJoin)
    eqn:E2; simpl.
  { exists [SenderJoin; WorkerJoin]. rewrite <- app_assoc.
    split_and!; try done.
    - by eexists.
    - intros H. rewrite H in E2; [done | set_solver]. }
  destruct (raises env ((trace (world st) ++ [SenderJoin]) ++ [WorkerJoin])
              (QueueClose rq)) eqn:E3; simpl.
  { exists [SenderJoin; WorkerJoin; QueueClose rq]. rewrite <- !app_assoc.
    split_and!; try done.
    - by eexists.
    - intros H. rewrite H in E3; [done | set_solver]. }
  exists [SenderJoin; WorkerJoin; QueueClose rq; QueueClose sq].
  rewrite <- !app_assoc. simpl.
  destruct (raises env _ (QueueClose sq)) eqn:E4; simpl;
    rewrite <- ?app_assoc; split_and!; try done.
  intros H. rewrite H in E4; [done | set_solver].
Qed.

Ltac destruct_step :=
  match goal with
  | |- context [raises ?e ?t ?c] =>
      let E := fresh "Hcall" in destruct (raises e t c) eqn:E
  | |- context [String.eqb ?s ""] =>
      let E := fresh "Hempty" in destruct (String.eqb s "") eqn:E
  | |- context [not_thread ?s] =>
      let E := fresh "Hkind" in destruct (not_thread s) eqn:E
  end.

(** Case analysis of a run of [ensure_launched]: the shape of the entry
    module, the kind of worker, and the outcome of each outside call. *)
Ltac launch_cases st :=
  unfold ensure_launched, Queue, new_worker, start, truthy; unfold_m; simpl;
  destruct st as [?b [?tr [[[[?name|]]|] [?path|]] ?nq]]; simpl;
  repeat (destruct_step; simpl).

Lemma launch_launched env settings ll st st' :
  ensure_launched env settings ll st = (Ok tt, st') →
  _done (self st) = false →
  launched (self st') (next_queue (world st)) (S (next_queue (world st))).
Proof.
  launch_cases st; intros H Hd; simplify_eq/=.
  all: unfold launched; simpl; split_and!; try done; lia.
Qed.

Lemma closes_cleanup_steps rq sq :
  rq ≠ sq →
  closes rq (cleanup_steps rq sq) = 1%nat ∧
  closes sq (cleanup_steps rq sq) = 1%nat.
Proof.
  intros Hne. unfold closes, cleanup_steps. simpl.
  destruct (bool_decide_reflect (rq = rq)) as [_|?]; [|done].
  destruct (bool_decide_reflect (sq = sq)) as [_|?]; [|done].
  destruct (bool_decide_reflect (sq = rq)) as [?|_]; [congruence|].
  destruct (bool_decide_reflect (rq = sq)) as [?|_]; [congruence|].
  done.
Qed.

Lemma cleanup_ok env st rq sq st' :
  launched (self st) rq sq →
  cleanup env st = (Ok tt, st') →
  _done (self st') = true ∧
  trace (world st') = trace (world st) ++ cleanup_steps rq sq.
Proof.
  intros Hl Hc.
  destruct (cleanup_launched env st rq sq Hl) as (steps & Ht & _ & Hok & _ & Hd).
  rewrite Hc in *. simpl in *. split; [done|]. by rewrite Ht, Hok.
Qed.

Lemma exec_ok env op st rq sq st' :
  launched (self st) rq sq →
  exec env op st = (Ok tt, st') →
  _done (self st') = true ∧
  ∃ n, trace (world st') =
       trace (world st) ++ replicate n WorkerTerminate ++ cleanup_steps rq sq.
Proof.
  intros Hl. destruct op; simpl.
  - intros Hc. destruct (cleanup_ok _ _ _ _ _ Hl Hc) as [Hd Ht].
    split; [done|]. by exists 0%nat.
  - unfold abort, terminate. unfold_m.
    destruct (wandb_process (self st)) as [p|]; simpl; [|done].
    destruct (w_kind p); simpl; [|done].
    destruct (raises env _ _); simpl; [done|].
    intros Hc. apply cleanup_ok with (rq := rq) (sq := sq) in Hc; [|done].
    destruct Hc as [Hd Ht]. split; [done|]. exists 1%nat.
    simpl in *. by rewrite Ht, <- app_assoc.
Qed.

(** C2: on a launched handle, [cleanup] joins the sender interface, then
    joins the worker, then closes the record queue and the result queue.
    The calls it makes are always an initial part of that sequence (a step
    is neither reordered nor skipped over); they are the whole sequence
    whenever [cleanup] returns, and it returns when none of the four calls
    raises. *)
Theorem cleanup_order env st rq sq :
  launched (self st) rq sq →
  ∃ steps,
    trace (world (cleanup env st).2) = trace (world st) ++ steps ∧
    steps `prefix_of` [SenderJoin; WorkerJoin; QueueClose rq; QueueClose sq] ∧
    ((cleanup env st).1 = Ok tt →
     steps = [SenderJoin; WorkerJoin; QueueClose rq; QueueClose sq]) ∧
    ((∀ tr c, c ∈ [SenderJoin; WorkerJoin; QueueClose rq; QueueClose sq] →
              raises env tr c = None) →
     (cleanup env st).1 = Ok tt).
Proof.
  intros Hl.
  destruct (cleanup_launched env st rq sq Hl) as (steps & H1 & H2 & H3 & H4 & _).
  by exists steps.
Qed.

Lemma cleanup_order_witness :
  let st := (ensure_launched quiet None None (fresh script)).2 in
  launched (self st) 0%nat 1%nat ∧
  ∃ steps,
    trace (world (cleanup quiet st).2) = trace (world st) ++ steps ∧
    steps `prefix_of`
      [SenderJoin; WorkerJoin; QueueClose 0%nat; QueueClose 1%nat] ∧
    ((cleanup quiet st).1 = Ok tt →
     steps = [SenderJoin; WorkerJoin; QueueClose 0%nat; QueueClose 1%nat]) ∧
    ((∀ tr c,
        c ∈ [SenderJoin; WorkerJoin; QueueClose 0%nat; QueueClose 1%nat] →
        raises quiet tr c = None) →
     (cleanup quiet st).1 = Ok tt).
Proof.
  assert (Hl : launched
                 (self (ensure_launched quiet None None (fresh script)).2)
                 0%nat 1%nat).
  { unfold launched. vm_compute.
    split_and!; [reflexivity|reflexivity|reflexivity|discriminate| |];
      eexists; reflexivity. }
  split; [exact Hl|].
  exact (cleanup_order quiet _ 0%nat 1%nat Hl).
Defined.

(** In thread mode [abort] raises before it reaches [cleanup], whatever the
    state of the handle. *)
Lemma abort_thread_raises env st p :
  wandb_process (self st) = Some p →
  w_kind p = BackendThread →
  abort env st =
    (Raise (AttributeError
              "'BackendThread' object has no attribute 'terminate'"), st).
Proof.
  intros Hp Hk. unfold abort, terminate. unfold_m. by rewrite Hp, Hk.
Qed.

(** Neither [cleanup] nor [abort] assigns the worker field. *)
Lemma cleanup_worker env st :
  wandb_process (self (cleanup env st).2) = wandb_process (self st).
Proof.
  unfold cleanup. unfold_m.
  destruct (_done (self st)); simpl; [done|].
  destruct (interface (self st)); simpl; [|done].
  destruct (raises env _ _); simpl; [done|].
  destruct (wandb_process (self st)); simpl; [|done].
  destruct (raises env _ _); simpl; [done|].
  destruct (record_q (self st)); simpl; [|done].
  destruct (raises env _ _); simpl; [done|].
  destruct (result_q (self st)); simpl; [|done].
  by destruct (raises env _ _).
Qed.

Lemma exec_worker env op st :
  wandb_process (self (exec env op st).2) = wandb_process (self st).
Proof.
  destruct op; simpl; [apply cleanup_worker|].
  unfold abort, terminate. unfold_m.
  destruct (wandb_process (self st)) as [p|] eqn:Hp; simpl; [|done].
  destruct (w_kind p); simpl; [|done].
  destruct (raises env _ _); simpl; [done|].
  by rewrite cleanup_worker.
Qed.

(** [abort] on a handle that is torn down, when the worker is a process:
    one [terminate] call and nothing else; it raises what that call
    raises. *)
Lemma abort_done_process env st p :
  _done (self st) = true →
  wandb_process (self st) = Some p →
  w_kind p = MpProcess →
  abort env st =
    (match raises env (trace (world st)) WorkerTerminate with
     | Some e => Raise e
     | None => Ok tt
     end,
     {| self := self st; world := record WorkerTerminate (world st) |}).
Proof.
  intros Hd Hp Hk. unfold abort, terminate. unfold_m. rewrite Hp, Hk. simpl.
  destruct (raises env _ _); simpl; [done|]. by rewrite cleanup_done.
Qed.

(** A sequence of teardown calls on a handle that is torn down. *)
Lemma run_done_exact env ops st p :
  _done (self st) = true →
  wandb_process (self st) = Some p →
  self (run env ops st) = self st ∧
  main_module (world (run env ops st)) = main_module (world st) ∧
  next_queue (world (run env ops st)) = next_queue (world st) ∧
  trace (world (run env ops st)) =
    trace (world st) ++ replicate (terminates p ops) WorkerTerminate.
Proof.
  revert st. induction ops as [|op ops IH]; intros st Hd Hp.
  { unfold terminates, aborts. simpl.
    destruct (w_kind p); simpl; by rewrite app_nil_r. }
  simpl. destruct op; simpl.
  - rewrite cleanup_done by done.
    destruct (IH st Hd Hp) as (H1 & H2 & H3 & H4). by split_and!.
  - destruct (w_kind p) eqn:Hk.
    + rewrite (abort_done_process env st p Hd Hp Hk). simpl.
      destruct (IH {| self := self st;
                      world := record WorkerTerminate (world st) |} Hd Hp)
        as (H1 & H2 & H3 & H4).
      split_and!; try done.
      rewrite H4. simpl. rewrite <- app_assoc. unfold terminates, aborts.
      by rewrite Hk.
    + rewrite (abort_thread_raises env st p Hp Hk). simpl.
      destruct (IH st Hd Hp) as (H1 & H2 & H3 & H4). split_and!; try done.
      rewrite H4. unfold terminates. by rewrite Hk.
Qed.

(** C1 (amended): once a first [cleanup] or [abort] has completed on a
    launched handle, take any further sequence of [cleanup] and [abort]
    calls. It leaves the handle as it is, with the done flag set, and the
    entry module and the queue counter as they are; the calls it makes are
    exactly one [terminate] for each [abort] of the sequence when the
    worker is a process, and none when it is a thread: no join and no
    queue operation. In the state it reaches, [cleanup] is a no-op: it
    returns, makes no call and changes nothing. There [abort] on a process
    makes the one call [terminate], changes nothing on the handle, and
    returns unless that call raises; [abort] on a thread makes no call and
    changes nothing. Over the whole sequence [close] is called exactly
    once on the record queue and exactly once on the result queue. *)
Theorem teardown_once env st0 rq sq op ops st1 :
  launched (self st0) rq sq →
  exec env op st0 = (Ok tt, st1) →
  ∃ p,
    wandb_process (self st1) = Some p ∧
    _done (self st1) = true ∧
    self (run env ops st1) = self st1 ∧
    main_module (world (run env ops st1)) = main_module (world st1) ∧
    next_queue (world (run env ops st1)) = next_queue (world st1) ∧
    trace (world (run env ops st1)) =
      trace (world st1) ++ replicate (terminates p ops) WorkerTerminate ∧
    cleanup env (run env ops st1) = (Ok tt, run env ops st1) ∧
    (w_kind p = MpProcess →
     abort env (run env ops st1) =
       (match raises env (trace (world (run env ops st1))) WorkerTerminate
        with
        | Some e => Raise e
        | None => Ok tt
        end,
        {| self := self (run env ops st1);
           world := record WorkerTerminate (world (run env ops st1)) |})) ∧
    (w_kind p = BackendThread →
     (abort env (run env ops st1)).2 = run env ops st1) ∧
    ∃ calls, trace (world (run env ops st1)) = trace (world st0) ++ calls ∧
             closes rq calls = 1%nat ∧ closes sq calls = 1%nat.
Proof.
  intros Hl Hop.
  destruct (exec_ok _ _ _ _ _ _ Hl Hop) as [Hd [n Hn]].
  assert (Hp : is_Some (wandb_process (self st1))).
  { pose proof (exec_worker env op st0) as Hw. rewrite Hop in Hw.
    simpl in Hw. rewrite Hw. by destruct Hl as (_ & _ & _ & _ & ? & _). }
  destruct Hp as [p Hp]. exists p.
  destruct (run_done_exact env ops st1 p Hd Hp) as (Hs & Hm & Hq & Ht).
  assert (Hd' : _done (self (run env ops st1)) = true) by by rewrite Hs.
  assert (Hp' : wandb_process (self (run env ops st1)) = Some p)
    by by rewrite Hs.
  split_and!; try done.
  - by apply cleanup_done.
  - intros Hk. by apply abort_done_process with p.
  - intros Hk. by rewrite (abort_thread_raises env _ p Hp' Hk).
  - exists (replicate n WorkerTerminate ++ cleanup_steps rq sq
            ++ replicate (terminates p ops) WorkerTerminate).
    destruct Hl as (_ & _ & _ & Hne & _).
    destruct (closes_cleanup_steps rq sq Hne) as [Hc1 Hc2].
    rewrite Ht, Hn, !closes_app, !closes_terminates, Hc1, Hc2.
    by rewrite <- !app_assoc.
Qed.

Lemma teardown_once_witness :
  let st0 := (ensure_launched quiet None None (fresh script)).2 in
  let st1 := (cleanup quiet st0).2 in
  let ops := [OpAbort; OpCleanup; OpAbort] in
  ∃ p,
    wandb_process (self st1) = Some p ∧
    _done (self st1) = true ∧
    self (run quiet ops st1) = self st1 ∧
    main_module (world (run quiet ops st1)) = main_module (world st1) ∧
    next_queue (world (run quiet ops st1)) = next_queue (world st1) ∧
    trace (world (run quiet ops st1)) =
      trace (world st1) ++ replicate (terminates p ops) WorkerTerminate ∧
    cleanup quiet (run quiet ops st1) = (Ok tt, run quiet ops st1) ∧
    (w_kind p = MpProcess →
     abort quiet (run quiet ops st1) =
       (match raises quiet (trace (world (run quiet ops st1))) WorkerTerminate
        with
        | Some e => Raise e
        | None => Ok tt
        end,
        {| self := self (run quiet ops st1);
           world := record WorkerTerminate (world (run quiet ops st1)) |})) ∧
    (w_kind p = BackendThread →
     (abort quiet (run quiet ops st1)).2 = run quiet ops st1) ∧
    ∃ calls, trace (world (run quiet ops st1)) = trace (world st0) ++ calls ∧
             closes 0%nat calls = 1%nat ∧ closes 1%nat calls = 1%nat.
Proof.
  apply (teardown_once quiet
           (ensure_launched quiet None None (fresh script)).2
           0%nat 1%nat OpCleanup [OpAbort; OpCleanup; OpAbort]).
  - unfold launched. vm_compute.
    split_and!; [reflexivity|reflexivity|reflexivity|discriminate| |];
      eexists; reflexivity.
  - vm_compute. reflexivity.
Defined.

(** C1 as stated fails: on a process-mode handle that [cleanup] has torn
    down, [abort] returns but is not a no-op, it calls [terminate] on the
    worker once more. *)
Lemma abort_after_cleanup_terminates :
  let st0 := (ensure_launched quiet None None (fresh script)).2 in
  let st1 := (cleanup quiet st0).2 in
  cleanup quiet st0 = (Ok tt, st1) ∧
  _done (self st1) = true ∧
  trace (world (abort quiet st1).2) = trace (world st1) ++ [WorkerTerminate] ∧
  abort quiet st1 ≠ (Ok tt, st1).
Proof.
  split_and!.
  - vm_compute. reflexivity.
  - vm_compute. reflexivity.
  - vm_compute. reflexivity.
  - intros H.
    apply (f_equal (λ r : result unit * State, length (trace (world r.2)))) in H.
    vm_compute in H. discriminate.
Qed.

(** ** The mapping handed to the worker *)

Lemma worker_settings_early_logger settings ll :
  worker_settings settings ll !! "_early_logger" = None.
Proof.
  unfold worker_settings. case_decide as Hin.
  - apply lookup_delete_eq.
  - by apply not_elem_of_dom in Hin.
Qed.

Lemma worker_settings_log_level settings ll :
  worker_settings settings ll !! "_log_level" =
  Some (VInt (log_level_or_debug ll)).
Proof.
  unfold worker_settings. case_decide.
  - rewrite lookup_delete_ne by (intros [=]). apply lookup_insert_eq.
  - apply lookup_insert_eq.
Qed.

Lemma worker_settings_start_method settings ll :
  worker_settings settings ll !! "start_method" =
  default ∅ settings !! "start_method".
Proof.
  unfold worker_settings. case_decide.
  - rewrite lookup_delete_ne by (intros [=]).
    by rewrite lookup_insert_ne by (intros [=]).
  - by rewrite lookup_insert_ne by (intros [=]).
Qed.

Lemma not_thread_false settings ll :
  not_thread (worker_settings settings ll) = false ↔
  default ∅ settings !! "start_method" = Some (VStr "thread").
Proof.
  unfold not_thread. rewrite worker_settings_start_method.
  destruct (default ∅ settings !! "start_method") as [[| |s|]|]; try done.
  rewrite negb_false_iff, String.eqb_eq. split; congruence.
Qed.

Lemma launch_trace env settings ll st :
  ∃ calls,
    trace (world (ensure_launched env settings ll st).2) =
      trace (world st) ++ calls ∧
    calls `prefix_of` launch_calls env settings ll (next_queue (world st)) ∧
    ((ensure_launched env settings ll st).1 = Ok tt →
     calls = launch_calls env settings ll (next_queue (world st))).
Proof.
  unfold launch_calls.
  launch_cases st; rewrite <- ?app_assoc; simpl.
  all: eexists; split; [reflexivity|]; split; [by eexists|done].
Qed.

Lemma launch_worker env settings ll st st' :
  ensure_launched env settings ll st = (Ok tt, st') →
  ∃ p, wandb_process (self st') = Some p ∧
       _internal_pid (self st') = w_pid p ∧
       if not_thread (worker_settings settings ll)
       then w_kind p = MpProcess ∧ w_pid p = Some (Z.pos (os_pid env))
       else w_kind p = BackendThread ∧ w_daemon p = true ∧ w_pid p = Some 0.
Proof.
  launch_cases st; intros H; simplify_eq/=.
  all: eexists; split_and!; reflexivity.
Qed.

(** C6: when the start-mode field of the configuration is "thread" the
    worker is a daemon [BackendThread] and the recorded process id is 0;
    for any other value, and when the field is absent, the worker is a
    separate process and the recorded identity is its process id, which is
    not 0. *)
Theorem run_mode env settings ll st st' :
  ensure_launched env settings ll st = (Ok tt, st') →
  ∃ p, wandb_process (self st') = Some p ∧
    (default ∅ settings !! "start_method" = Some (VStr "thread") →
     w_kind p = BackendThread ∧ w_daemon p = true ∧ w_pid p = Some 0 ∧
     _internal_pid (self st') = Some 0) ∧
    (default ∅ settings !! "start_method" ≠ Some (VStr "thread") →
     w_kind p = MpProcess ∧
     ∃ pid, pid ≠ 0 ∧ w_pid p = Some pid ∧ _internal_pid (self st') = Some pid).
Proof.
  intros H. destruct (launch_worker _ _ _ _ _ H) as (p & Hp & Hpid & Hk).
  exists p. split; [done|].
  destruct (not_thread (worker_settings settings ll)) eqn:Hnt.
  - split.
    + intros Hth. apply not_thread_false with (ll := ll) in Hth. congruence.
    + intros _. destruct Hk as [Hk Hw]. split; [done|].
      exists (Z.pos (os_pid env)). split_and!; [done|done|congruence].
  - split.
    + intros _. destruct Hk as (? & ? & ?). split_and!; try done. congruence.
    + intros Hth. by apply not_thread_false in Hnt.
Qed.

Lemma run_mode_witness :
  ∃ p, wandb_process
         (self (ensure_launched quiet (Some thread_settings) None
                  (fresh script)).2) = Some p ∧
    (default ∅ (Some thread_settings) !! "start_method" = Some (VStr "thread") →
     w_kind p = BackendThread ∧ w_daemon p = true ∧ w_pid p = Some 0 ∧
     _internal_pid
       (self (ensure_launched quiet (Some thread_settings) None
                (fresh script)).2) = Some 0) ∧
    (default ∅ (Some thread_settings) !! "start_method" ≠ Some (VStr "thread") →
     w_kind p = MpProcess ∧
     ∃ pid, pid ≠ 0 ∧ w_pid p = Some pid ∧
            _internal_pid
              (self (ensure_launched quiet (Some thread_settings) None
                       (fresh script)).2) = Some pid).
Proof.
  apply (run_mode quiet (Some thread_settings) None (fresh script)).
  vm_compute. reflexivity.
Defined.

(** Without a start-mode field the worker is a process, known by the
    process id the operating system gave it. *)
Example run_mode_process :
  ∃ p, wandb_process
         (self (ensure_launched quiet None None (fresh script)).2) = Some p ∧
       w_kind p = MpProcess ∧ w_pid p = Some 4242 ∧
       _internal_pid
         (self (ensure_launched quiet None None (fresh script)).2) = Some 4242.
Proof. eexists. split_and!; vm_compute; reflexivity. Qed.

(** C5 as stated fails: a caller that supplies the log level 0
    ([logging.NOTSET]) gets a worker configured with the debug level. *)
Lemma log_level_zero_replaced :
  ∃ p, wandb_process
         (self (ensure_launched quiet None (Some 0) (fresh script)).2) = Some p ∧
       kw_settings (w_kwargs p) !! "_log_level" = Some (VInt 10) ∧
       kw_settings (w_kwargs p) !! "_log_level" ≠ Some (VInt 0).
Proof.
  eexists. split; [vm_compute; reflexivity|].
  split; [vm_compute; reflexivity|]. vm_compute. discriminate.
Qed.

(** C5 (amended): whatever the settings, every configuration that
    [ensure_launched] hands to the worker constructor is free of the
    "_early_logger" field and carries under "_log_level" the log level of
    the caller when one is supplied and is not 0, and the debug level when
    none is supplied or it is 0. A launch that returns has constructed the
    worker with such a configuration. *)
Theorem worker_configuration env settings ll st :
  ∃ calls,
    trace (world (ensure_launched env settings ll st).2) =
      trace (world st) ++ calls ∧
    (∀ k kw, WorkerNew k kw ∈ calls →
       kw_settings kw !! "_early_logger" = None ∧
       (∀ l, ll = Some l → l ≠ 0 →
             kw_settings kw !! "_log_level" = Some (VInt l)) ∧
       (ll = None ∨ ll = Some 0 →
        kw_settings kw !! "_log_level" = Some (VInt DEBUG))) ∧
    ((ensure_launched env settings ll st).1 = Ok tt →
     ∃ k kw, WorkerNew k kw ∈ calls).
Proof.
  assert (Hkw : ∀ calls : list Call,
    (∀ k kw, WorkerNew k kw ∈ calls →
             kw_settings kw = worker_settings settings ll) →
    ∀ k kw, WorkerNew k kw ∈ calls →
       kw_settings kw !! "_early_logger" = None ∧
       (∀ l, ll = Some l → l ≠ 0 →
             kw_settings kw !! "_log_level" = Some (VInt l)) ∧
       (ll = None ∨ ll = Some 0 →
        kw_settings kw !! "_log_level" = Some (VInt DEBUG))).
  { intros calls Hall k kw Hin. rewrite (Hall k kw Hin).
    rewrite worker_settings_early_logger, worker_settings_log_level.
    split_and!; [done| |].
    - intros l -> Hl. simpl. by rewrite (proj2 (Z.eqb_neq l 0) Hl).
    - by intros [-> | ->]. }
  destruct (launch_trace env settings ll st) as (calls & Ht & Hpre & Hok).
  exists calls. split; [done|]. split.
  - apply Hkw. intros k kw Hin.
    destruct Hpre as [rest Hrest].
    assert (Hin' : WorkerNew k kw ∈
                   launch_calls env settings ll (next_queue (world st))).
    { rewrite Hrest. apply elem_of_app. by left. }
    unfold launch_calls in Hin'.
    repeat (apply elem_of_cons in Hin' as [Hin'|Hin']; [by simplify_eq|]).
    by apply elem_of_nil in Hin'.
  - intros Hr. rewrite (Hok Hr). unfold launch_calls.
    do 2 eexists. rewrite !elem_of_cons. right; right; left. reflexivity.
Qed.

(** ** The entry module *)

(** C3 as stated fails: when the start call raises, the rewritten spec name
    of the entry module is left in place. *)
Lemma identity_lost_when_start_raises :
  (ensure_launched start_fails None None (fresh package_main)).1 =
    Raise (OSError "spawn failed") ∧
  main_module (world (ensure_launched start_fails None None
                        (fresh package_main)).2) =
    {| mod_spec := Some {| spec_name := Some "wandb.mpmain" |};
       mod_file := Some "/src/app/train.py" |} ∧
  main_module (world (ensure_launched start_fails None None
                        (fresh package_main)).2) ≠
    main_module (world (fresh package_main)).
Proof.
  split_and!; [vm_compute; reflexivity..|].
  vm_compute. discriminate.
Qed.

(** C3 (amended): when the start call of the worker does not raise, the
    entry module is, after [ensure_launched], what it was before it: the
    spec name, or else the file path, that was rewritten for the start call
    has its original value again, provided that value is not the empty
    string. *)
Theorem identity_restored env settings ll st :
  (∀ tr, raises env tr WorkerStart = None) →
  rewritten (main_module (world st)) ≠ Some "" →
  main_module (world (ensure_launched env settings ll st).2) =
    main_module (world st).
Proof.
  intros Hstart.
  launch_cases st; intros Hne; try reflexivity.
  all: try (rewrite Hstart in *; discriminate).
  all: apply String.eqb_eq in Hempty; by subst.
Qed.

Lemma identity_restored_witness :
  main_module (world (ensure_launched quiet None None
                        (fresh package_main)).2) =
    main_module (world (fresh package_main)).
Proof.
  apply (identity_restored quiet None None (fresh package_main)).
  - reflexivity.
  - vm_compute. discriminate.
Defined.

(** The entry module is rewritten while the worker starts: the calls are
    made under the substituted identity. *)
Lemma identity_rewritten_during_start :
  main_module (world (ensure_launched start_fails None None (fresh script)).2) =
    {| mod_spec := None;
       mod_file := Some "/site-packages/wandb/mpmain/__main__.py" |}.
Proof. vm_compute. reflexivity. Qed.

(** ** Failure of a launch *)

(** C4 as stated fails: when the second queue cannot be allocated, the
    first one stays recorded on the handle. *)
Lemma queue_left_on_handle :
  (ensure_launched second_queue_fails None None (fresh script)).1 =
    Raise (OSError "too many open files") ∧
  record_q (self (ensure_launched second_queue_fails None None
                    (fresh script)).2) = Some 0%nat ∧
  record_q (self (ensure_launched second_queue_fails None None
                    (fresh script)).2) ≠ None.
Proof.
  split_and!; [vm_compute; reflexivity..|]. vm_compute. discriminate.
Qed.

(** C4 (amended): when [ensure_launched] fails in a queue allocation, in
    the construction of the worker or in its start call, the caller
    receives the very exception that call raised, and the handle records
    neither a sender interface nor a worker process id from the failed
    launch: both fields, and the done flag, are what they were before.
    When the failure comes before the start call, the worker field is
    unchanged as well. What was assigned before the failing call stays on
    the handle: no queue field is touched when the first allocation fails;
    the record queue is the new queue, and the result queue untouched,
    when the second allocation fails; both queue fields hold the new
    queues when any later call fails, and the worker field then holds the
    worker that was built on these two queues. *)
Theorem launch_failure env settings ll st e st' :
  ensure_launched env settings ll st = (Raise e, st') →
  ∃ tr c,
    trace (world st') = tr ++ [c] ∧
    raises env tr c = Some e ∧
    (is_creation c = true ∨ c = WorkerStart →
     interface (self st') = interface (self st) ∧
     _internal_pid (self st') = _internal_pid (self st) ∧
     _done (self st') = _done (self st)) ∧
    (is_creation c = true →
     wandb_process (self st') = wandb_process (self st)) ∧
    match c with
    | QueueNew q =>
        result_q (self st') = result_q (self st) ∧
        (q = next_queue (world st) ∧
         record_q (self st') = record_q (self st) ∨
         q = S (next_queue (world st)) ∧
         record_q (self st') = Some (next_queue (world st)))
    | _ =>
        record_q (self st') = Some (next_queue (world st)) ∧
        result_q (self st') = Some (S (next_queue (world st)))
    end ∧
    (is_creation c = false →
     ∃ p, wandb_process (self st') = Some p ∧
          kw_record_q (w_kwargs p) = next_queue (world st) ∧
          kw_result_q (w_kwargs p) = S (next_queue (world st))).
Proof.
  launch_cases st; intros H; simplify_eq/=.
  all: do 2 eexists; split; [reflexivity|]; split; [eassumption|].
  all: split; [intros [?|?]; done|].
  all: split; [try done|].
  all: split; [first [done | split; [done|]; first [by left | by right]]|].
  all: intros ?; try done; by eexists.
Qed.

Lemma launch_failure_witness :
  let st := fresh script in
  let st' := (ensure_launched second_queue_fails None None st).2 in
  ∃ tr c,
    trace (world st') = tr ++ [c] ∧
    raises second_queue_fails tr c = Some (OSError "too many open files") ∧
    (is_creation c = true ∨ c = WorkerStart →
     interface (self st') = interface (self st) ∧
     _internal_pid (self st') = _internal_pid (self st) ∧
     _done (self st') = _done (self st)) ∧
    (is_creation c = true →
     wandb_process (self st') = wandb_process (self st)) ∧
    match c with
    | QueueNew q =>
        result_q (self st') = result_q (self st) ∧
        (q = next_queue (world st) ∧
         record_q (self st') = record_q (self st) ∨
         q = S (next_queue (world st)) ∧
         record_q (self st') = Some (next_queue (world st)))
    | _ =>
        record_q (self st') = Some (next_queue (world st)) ∧
        result_q (self st') = Some (S (next_queue (world st)))
    end ∧
    (is_creation c = false →
     ∃ p, wandb_process (self st') = Some p ∧
          kw_record_q (w_kwargs p) = next_queue (world st) ∧
          kw_result_q (w_kwargs p) = S (next_queue (world st))).
Proof.
  apply (launch_failure second_queue_fails None None (fresh script)).
  vm_compute. reflexivity.
Defined.

End BackendFacts.

(** * Properties of the IPU statistics *)

Module IPUFacts.
Import IPU.

(** ** Aggregation *)

Lemma serialize_loop_ok samples keys stats out :
  serialize_loop samples keys stats = Ok out →
  ∀ key,
    (key ∈ keys →
     ∃ agg, aggregate (values_of key samples) = Ok agg ∧ out !! key = Some agg) ∧
    (key ∉ keys → out !! key = stats !! key).
Proof.
  revert stats. induction keys as [|k keys IH]; intros stats Hloop key.
  - simpl in Hloop. injection Hloop as <-. split; [|done].
    intros Hin. by apply elem_of_nil in Hin.
  - simpl in Hloop.
    destruct (aggregate (values_of k samples)) as [agg|e] eqn:Hagg;
      [|discriminate].
    simpl in Hloop. destruct (IH _ Hloop key) as [Hin Hout].
    destruct (decide (key ∈ keys)) as [Hk|Hk].
    + split; [by intros _; apply Hin|]. intros Hn. exfalso. apply Hn.
      apply elem_of_cons; by right.
    + split.
      * intros [->|?]%elem_of_cons; [|done].
        exists agg. split; [done|]. rewrite (Hout Hk). apply lookup_insert_eq.
      * intros Hn. rewrite (Hout Hk). apply lookup_insert_ne.
        intros ->. apply Hn. apply elem_of_cons; by left.
Qed.

Lemma serialize_loop_returns samples keys stats :
  (∀ key, key ∈ keys → ∃ agg, aggregate (values_of key samples) = Ok agg) →
  ∃ out, serialize_loop samples keys stats = Ok out.
Proof.
  revert stats. induction keys as [|k keys IH]; intros stats Hall.
  - by eexists.
  - simpl. destruct (Hall k) as [agg ->]; [apply elem_of_cons; by left|].
    simpl. apply IH. intros key Hin. apply Hall. apply elem_of_cons; by right.
Qed.

Lemma serialize_first first rest stats :
  serialize (first :: rest) = Ok stats →
  ∀ key,
    (is_Some (first !! key) →
     ∃ agg, aggregate (values_of key (first :: rest)) = Ok agg ∧
            stats !! key = Some agg) ∧
    (first !! key = None → stats !! key = None).
Proof.
  intros Hs key. unfold serialize in Hs.
  destruct (serialize_loop_ok _ _ _ _ Hs key) as [Hin Hout]. split.
  - intros Hk. apply Hin. by apply elem_of_elements, elem_of_dom.
  - intros Hk. rewrite Hout; [done|].
    rewrite elem_of_elements, elem_of_dom, Hk. by intros [? ?].
Qed.

(** [serialize] returns exactly when every aggregate of a key of the first
    sample can be computed. *)
Lemma serialize_returns first rest :
  (∀ key, is_Some (first !! key) →
          ∃ agg, aggregate (values_of key (first :: rest)) = Ok agg) ↔
  ∃ stats, serialize (first :: rest) = Ok stats.
Proof.
  split.
  - intros Hall. apply serialize_loop_returns. intros key Hin.
    apply Hall. by apply elem_of_dom, elem_of_elements.
  - intros [stats Hs] key Hk.
    destruct (serialize_first _ _ _ Hs key) as [Hin _].
    destruct (Hin Hk) as (agg & ? & _). by exists agg.
Qed.

(** The sum of integers is exact. *)
Lemma sum_from_ints acc zs :
  sum_from (PInt acc) (PInt <$> zs) = Ok (PInt (foldl Z.add acc zs)).
Proof.
  revert acc. induction zs as [|z zs IH]; intros acc; [done|].
  simpl. apply IH.
Qed.

(** A sum of floats does not raise. *)
Lemma sum_from_floats f fs :
  ∃ g, sum_from (PFloat f) (PFloat <$> fs) = Ok (PFloat g).
Proof.
  revert f. induction fs as [|x fs IH]; intros f; [by eexists|].
  simpl. apply IH.
Qed.

(** Neither does the mean of a list of floats. *)
Lemma aggregate_floats f fs :
  ∃ g, aggregate (PFloat <$> (f :: fs)) = Ok (PFloat g).
Proof.
  unfold aggregate, py_sum.
  change (sum_from (PInt 0) (PFloat <$> f :: fs))
    with (sum_from (PFloat (0 + f)) (PFloat <$> fs)).
  destruct (sum_from_floats (0 + f) fs) as [g ->]. simpl. by eexists.
Qed.

(** The values aggregated for a key are those of the samples that contain
    the key, in the order of the buffer. *)
Lemma values_of_filter key (samples : list Sample) :
  Some <$> values_of key samples =
  (λ s : Sample, s !! key) <$> filter (λ s : Sample, is_Some (s !! key)) samples.
Proof.
  unfold values_of. induction samples as [|s samples IH]; [done|].
  rewrite filter_cons.
  destruct (decide (is_Some (s !! key))) as [[v Hv]|Hn].
  - cbn. rewrite Hv. cbn. f_equal. exact IH.
  - cbn. destruct (s !! key) as [v|] eqn:Hv; [|exact IH].
    exfalso. apply Hn. by exists v.
Qed.

Lemma dom_serialize first rest stats :
  serialize (first :: rest) = Ok stats → dom stats = dom first.
Proof.
  intros Hs. apply set_eq. intros key. rewrite !elem_of_dom.
  destruct (serialize_first _ _ _ Hs key) as [Hin Hout].
  destruct (first !! key) as [v|] eqn:Hk.
  - destruct Hin as (agg & _ & ->); by eauto.
  - rewrite Hout by done. done.
Qed.

(** C10: for a non-empty buffer, the mapping [serialize] returns has the
    keys of the first buffered sample and no other: a key that occurs only
    in later samples is absent from it. The value of a key of the first
    sample is the aggregate of the values that the samples containing the
    key have for it, and of nothing else. *)
Theorem serialize_first_sample_keys first rest stats :
  serialize (first :: rest) = Ok stats →
  dom stats = dom first ∧
  (∀ key, first !! key = None → stats !! key = None) ∧
  (∀ key, is_Some (first !! key) →
     ∃ vals agg,
       Some <$> vals =
         (λ s : Sample, s !! key) <$>
           filter (λ s : Sample, is_Some (s !! key)) (first :: rest) ∧
       aggregate vals = Ok agg ∧
       stats !! key = Some agg).
Proof.
  intros Hs. split_and!.
  - by apply dom_serialize with rest.
  - intros key. by apply (serialize_first _ _ _ Hs key).
  - intros key Hk.
    destruct (serialize_first _ _ _ Hs key) as [Hin _].
    destruct (Hin Hk) as (agg & Hagg & Hst).
    exists (values_of key (first :: rest)), agg.
    split_and!; [apply values_of_filter|done|done].
Qed.

Lemma serialize_late_key :
  serialize late_key_samples = Ok {[ "a" := PFloat 1.5 ]}.
Proof. vm_compute. reflexivity. Qed.

Lemma serialize_first_sample_keys_witness :
  dom ({[ "a" := PFloat 1.5 ]} : Sample) = dom ({[ "a" := PInt 1 ]} : Sample) ∧
  (∀ key, ({[ "a" := PInt 1 ]} : Sample) !! key = None →
          ({[ "a" := PFloat 1.5 ]} : Sample) !! key = None) ∧
  (∀ key, is_Some (({[ "a" := PInt 1 ]} : Sample) !! key) →
     ∃ vals agg,
       Some <$> vals =
         (λ s : Sample, s !! key) <$>
           filter (λ s : Sample, is_Some (s !! key)) late_key_samples ∧
       aggregate vals = Ok agg ∧
       ({[ "a" := PFloat 1.5 ]} : Sample) !! key = Some agg).
Proof.
  apply (serialize_first_sample_keys {[ "a" := PInt 1 ]}
           [ {[ "a" := PInt 2; "b" := PInt 5 ]} ] {[ "a" := PFloat 1.5 ]}).
  vm_compute. reflexivity.
Defined.

(** C7 as stated fails: a metric key that has a buffered value, but not in
    the first sample, gets no entry in the mapping [serialize] returns. *)
Lemma late_key_dropped :
  values_of "b" late_key_samples = [PInt 5] ∧
  ∃ stats, serialize late_key_samples = Ok stats ∧ stats !! "b" = None.
Proof.
  split; [vm_compute; reflexivity|].
  eexists. split; [apply serialize_late_key|]. vm_compute. reflexivity.
Qed.

(** C7 (amended): [serialize] returns the empty mapping when no sample is
    buffered. Otherwise the mapping it returns holds, for each metric key
    of the first buffered sample, the arithmetic mean of the values
    buffered for that key, rounded to two decimals: the sum of the values,
    divided by their number, then rounded. For the three samples of the
    design document it returns 20.0 under "x.temp (C)". *)
Theorem serialize_mean :
  serialize [] = Ok ∅ ∧
  (∀ first rest stats key,
     serialize (first :: rest) = Ok stats →
     is_Some (first !! key) →
     ∃ total mean,
       py_sum (values_of key (first :: rest)) = Ok total ∧
       py_truediv total (length (values_of key (first :: rest))) = Ok mean ∧
       stats !! key = Some (py_round2 mean)) ∧
  serialize [ {[ "x.temp (C)" := PInt 10 ]}; {[ "x.temp (C)" := PInt 20 ]};
              {[ "x.temp (C)" := PInt 30 ]} ] =
    Ok {[ "x.temp (C)" := PFloat 20 ]}.
Proof.
  split_and!; [done| |vm_compute; reflexivity].
  intros first rest stats key Hs Hk.
  destruct (serialize_first _ _ _ Hs key) as [Hin _].
  destruct (Hin Hk) as (agg & Hagg & Hst). unfold aggregate in Hagg.
  destruct (py_sum (values_of key (first :: rest))) as [total|] eqn:Hsum;
    [|discriminate].
  cbn [mbind result_bind] in Hagg.
  destruct (py_truediv total (length (values_of key (first :: rest))))
    as [mean|] eqn:Hdiv; [|discriminate].
  cbn [mbind result_bind] in Hagg. injection Hagg as <-.
  by exists total, mean.
Qed.

Lemma serialize_mean_witness :
  ∃ total mean,
    py_sum (values_of "a" late_key_samples) = Ok total ∧
    py_truediv total (length (values_of "a" late_key_samples)) = Ok mean ∧
    ({[ "a" := PFloat 1.5 ]} : Sample) !! "a" = Some (py_round2 mean).
Proof.
  apply (proj1 (proj2 serialize_mean) {[ "a" := PInt 1 ]}
           [ {[ "a" := PInt 2; "b" := PInt 5 ]} ] {[ "a" := PFloat 1.5 ]} "a").
  - vm_compute. reflexivity.
  - vm_compute. eexists. reflexivity.
Defined.

(** The mean of integers is computed from their exact sum. *)
Lemma aggregate_ints z zs :
  aggregate (PInt <$> (z :: zs)) =
  mean ← int_truediv (foldl Z.add 0 (z :: zs))
           (Pos.of_nat (length (z :: zs)));
  Ok (py_round2 mean).
Proof.
  unfold aggregate, py_sum. by rewrite sum_from_ints, length_fmap.
Qed.

(** Means computed by the model; [round(107 / 40, 2)] shows the binary
    rounding of 2.675 before the decimal rounding. *)
Example aggregate_halves :
  aggregate [PInt 1; PInt 2] = Ok (PFloat 1.5) ∧
  aggregate [PInt 1; PInt 2; PInt 2] = Ok (PFloat 0x1.ab851eb851eb8p+0) (* 1.67 *) ∧
  aggregate [PFloat 0.25; PInt 0] = Ok (PFloat 0x1.eb851eb851eb8p-4) (* 0.12 *) ∧
  aggregate [PInt 107; PInt 0; PInt 0; PInt 0; PInt 0; PInt 0; PInt 0;
             PInt 0; PInt 0; PInt 0; PInt 0; PInt 0; PInt 0; PInt 0;
             PInt 0; PInt 0; PInt 0; PInt 0; PInt 0; PInt 0; PInt 0;
             PInt 0; PInt 0; PInt 0; PInt 0; PInt 0; PInt 0; PInt 0;
             PInt 0; PInt 0; PInt 0; PInt 0; PInt 0; PInt 0; PInt 0;
             PInt 0; PInt 0; PInt 0; PInt 0; PInt 0] =
    Ok (PFloat 0x1.55c28f5c28f5cp+1) (* 2.67 *).
Proof. split_and!; vm_compute; reflexivity. Qed.

(** ** Sampling *)

Lemma termwarn_seen msg t :
  msg ∈ seen t → termwarn msg false t = t.
Proof.
  intros Hs. unfold termwarn. simpl. by rewrite bool_decide_eq_true_2.
Qed.

Lemma termwarn_new msg t :
  msg ∉ seen t →
  termwarn msg false t =
    {| printed := printed t ++ [msg]; seen := {[ msg ]} ∪ seen t |}.
Proof.
  intros Hs. unfold termwarn. simpl. by rewrite bool_decide_eq_false_2.
Qed.

(** A warning is printed once: the message is known afterwards, and a
    second warning with the same message prints nothing. *)
Lemma termwarn_once msg t :
  termwarn msg false (termwarn msg false t) = termwarn msg false t.
Proof.
  destruct (decide (msg ∈ seen t)) as [Hs|Hs].
  - by rewrite !(termwarn_seen msg t Hs).
  - rewrite (termwarn_new _ _ Hs). apply termwarn_seen. simpl. set_solver.
Qed.

(** C8: whatever the device query returns or raises, and whatever the
    devices it returns look like, [sample] returns normally. An error
    inside it, be it raised by the query or by the conversion of a process
    id, leaves the buffer of samples as it was and becomes the warning
    "IPU stats error ...", which is printed unless a warning with the same
    message was printed before. *)
Theorem sample_never_raises py_int py_float devices self t :
  ∃ self' t',
    sample py_int py_float devices (self, t) = (Ok tt, (self', t')) ∧
    (∀ e self1,
       sample_body py_int py_float devices (self, t) = (Raise e, (self1, t)) →
       samples self' = samples self ∧
       t' = termwarn ("IPU stats error " +:+ exn_str e) false t ∧
       termwarn ("IPU stats error " +:+ exn_str e) false t' = t') ∧
    (∀ e, devices = Raise e →
          sample_body py_int py_float devices (self, t) = (Raise e, (self, t))).
Proof.
  assert (Hsamples : ∀ ds stats s,
            samples (sample_devices py_int py_float ds stats s).2 = samples s).
  { induction ds as [|d ds IH]; intros stats s; [done|]. simpl.
    destruct (get d "user process id") as [pid|]; [|apply IH].
    destruct (py_int pid) as [n|]; [|done].
    destruct (negb (n =? _pid s)); [apply IH|].
    rewrite IH. by destruct (get d "id"). }
  unfold sample, try_except, sample_body.
  destruct devices as [ds|e]; simpl.
  - pose proof (Hsamples ds ∅ self) as Hs.
    destruct (sample_devices py_int py_float ds ∅ self) as [[stats|e] s1];
      simpl in *.
    + do 2 eexists. split; [reflexivity|]. split; [|done].
      intros e s2 [=].
    + do 2 eexists. split; [reflexivity|]. split; [|done].
      intros e' s2 [= <- <-]. split_and!; [done|done|apply termwarn_once].
  - do 2 eexists. split; [reflexivity|]. split; [|by intros e' [= <-]].
    intros e' s2 [= <- <-]. split_and!; [done|done|apply termwarn_once].
Qed.

Lemma sample_never_raises_witness :
  ∃ self' t',
    sample (λ _, None) (λ _, None) (Raise (RuntimeError "device lost"))
      ({| samples := []; _pid := 7; _devices_called := ∅ |},
       {| printed := []; seen := ∅ |}) = (Ok tt, (self', t')) ∧
    samples self' = [] ∧
    printed t' = ["IPU stats error device lost"].
Proof.
  destruct (sample_never_raises (λ _, None) (λ _, None)
              (Raise (RuntimeError "device lost"))
              {| samples := []; _pid := 7; _devices_called := ∅ |}
              {| printed := []; seen := ∅ |})
    as (self' & t' & Hs & Hraise & Hq).
  exists self', t'. split; [exact Hs|].
  destruct (Hraise _ _ (Hq _ eq_refl)) as (H1 & H2 & _).
  split; [exact H1|]. rewrite H2. vm_compute. reflexivity.
Defined.

End IPUFacts.

(** * Properties of the transport security toggle *)

Module WandbEnvFacts.
Import WandbEnv.

(** C9: certificate verification is reported disabled exactly when the
    flag is set to a value that is "true" up to the case of its letters.
    The flag being absent, the empty string, "false" and any other value
    report it enabled; "true", "True" and "TRUE" report it disabled. *)
Theorem ssl_disabled_iff_true (environ : gmap string string) :
  (ssl_disabled environ = true ↔
   ∃ value, environ !! "WANDB_INSECURE_DISABLE_SSL" = Some value ∧
            lower value = "true") ∧
  (environ !! "WANDB_INSECURE_DISABLE_SSL" = None →
   ssl_disabled environ = false) ∧
  ssl_disabled ∅ = false ∧
  ssl_disabled {[ "WANDB_INSECURE_DISABLE_SSL" := "" ]} = false ∧
  ssl_disabled {[ "WANDB_INSECURE_DISABLE_SSL" := "false" ]} = false ∧
  ssl_disabled {[ "WANDB_INSECURE_DISABLE_SSL" := "true" ]} = true ∧
  ssl_disabled {[ "WANDB_INSECURE_DISABLE_SSL" := "True" ]} = true ∧
  ssl_disabled {[ "WANDB_INSECURE_DISABLE_SSL" := "TRUE" ]} = true ∧
  ssl_disabled {[ "WANDB_INSECURE_DISABLE_SSL" := "1" ]} = false.
Proof.
  split_and!; try (vm_compute; reflexivity).
  - unfold ssl_disabled, INSECURE_DISABLE_SSL.
    destruct (environ !! "WANDB_INSECURE_DISABLE_SSL") as [value|].
    + rewrite String.eqb_eq. split; [by eauto|]. by intros (? & [= <-] & ?).
    + split; [done|]. by intros (? & [=] & _).
  - unfold ssl_disabled, INSECURE_DISABLE_SSL. by intros ->.
Qed.

End WandbEnvFacts.

(** * Further properties of the backend handle *)

Module BackendExtra.
Import Backend BackendVocab BackendFacts.

Lemma launch_state env settings ll st st' :
  ensure_launched env settings ll st = (Ok tt, st') →
  ∃ p,
    wandb_process (self st') = Some p ∧
    _done (self st') = _done (self st) ∧
    record_q (self st') = Some (next_queue (world st)) ∧
    result_q (self st') = Some (S (next_queue (world st))) ∧
    interface (self st') =
      Some {| s_process := Some p;
              s_record_q := Some (next_queue (world st));
              s_result_q := Some (S (next_queue (world st))) |} ∧
    _internal_pid (self st') = w_pid p ∧
    w_kwargs p = {| kw_settings := worker_settings settings ll;
                    kw_record_q := next_queue (world st);
                    kw_result_q := S (next_queue (world st)) |} ∧
    w_name p = Some "wandb_internal" ∧
    next_queue (world st') = S (S (next_queue (world st))) ∧
    trace (world st') =
      trace (world st) ++
      launch_calls env settings ll (next_queue (world st)).
Proof.
  unfold launch_calls.
  launch_cases st; intros H; simplify_eq/=.
  all: eexists; split; [reflexivity|]; split_and!; try reflexivity.
  all: by rewrite <- !app_assoc.
Qed.

Lemma launch_done env settings ll st :
  _done (self (ensure_launched env settings ll st).2) = _done (self st).
Proof. launch_cases st; reflexivity. Qed.

Lemma closes_launch_calls q env settings ll nq :
  closes q (launch_calls env settings ll nq) = 0%nat.
Proof. reflexivity. Qed.

(** X1: apart from "_log_level", which is set, and "_early_logger", which
    is removed, the worker receives every setting of the caller as it is,
    and no setting the caller did not give. *)
Theorem settings_passed_through env settings ll st st' :
  ensure_launched env settings ll st = (Ok tt, st') →
  ∃ p, wandb_process (self st') = Some p ∧
       ∀ key, key ≠ "_log_level" → key ≠ "_early_logger" →
              kw_settings (w_kwargs p) !! key = default ∅ settings !! key.
Proof.
  intros H. destruct (launch_state _ _ _ _ _ H) as (p & Hp & _ & _ & _ & _ & _ & Hkw & _).
  exists p. split; [done|]. intros key H1 H2. rewrite Hkw. simpl.
  unfold worker_settings. case_decide.
  - rewrite lookup_delete_ne by done. by rewrite lookup_insert_ne.
  - by rewrite lookup_insert_ne.
Qed.

Lemma settings_passed_through_witness :
  ∃ p, wandb_process
         (self (ensure_launched quiet (Some thread_settings) None
                  (fresh script)).2) = Some p ∧
       ∀ key, key ≠ "_log_level" → key ≠ "_early_logger" →
              kw_settings (w_kwargs p) !! key =
              default ∅ (Some thread_settings) !! key.
Proof.
  apply (settings_passed_through quiet (Some thread_settings) None
           (fresh script)).
  vm_compute. reflexivity.
Defined.

(** X2: after a launch that returns, the handle holds two distinct queues
    that no earlier launch allocated, the worker was constructed with these
    two queues and carries the name "wandb_internal", the sender interface
    is bound to this worker and these queues, the recorded process id is
    the worker's, and the done flag is what it was. *)
Theorem launch_consistent env settings ll st st' :
  ensure_launched env settings ll st = (Ok tt, st') →
  ∃ p rq sq,
    record_q (self st') = Some rq ∧ result_q (self st') = Some sq ∧
    rq ≠ sq ∧ (next_queue (world st) ≤ rq)%nat ∧
    (next_queue (world st) ≤ sq)%nat ∧
    (rq < next_queue (world st'))%nat ∧ (sq < next_queue (world st'))%nat ∧
    wandb_process (self st') = Some p ∧
    kw_record_q (w_kwargs p) = rq ∧ kw_result_q (w_kwargs p) = sq ∧
    w_name p = Some "wandb_internal" ∧
    interface (self st') =
      Some {| s_process := Some p; s_record_q := Some rq;
              s_result_q := Some sq |} ∧
    _internal_pid (self st') = w_pid p ∧
    _done (self st') = _done (self st).
Proof.
  intros H.
  destruct (launch_state _ _ _ _ _ H)
    as (p & Hp & Hd & Hrq & Hsq & Hi & Hpid & Hkw & Hn & Hnq & _).
  exists p, (next_queue (world st)), (S (next_queue (world st))).
  rewrite Hkw, Hnq. split_and!; try done; lia.
Qed.

Lemma launch_consistent_witness :
  ∃ p rq sq,
    record_q (self (ensure_launched quiet None None (fresh script)).2) =
      Some rq ∧
    result_q (self (ensure_launched quiet None None (fresh script)).2) =
      Some sq ∧
    rq ≠ sq ∧ (next_queue (world (fresh script)) ≤ rq)%nat ∧
    (next_queue (world (fresh script)) ≤ sq)%nat ∧
    (rq < next_queue
            (world (ensure_launched quiet None None (fresh script)).2))%nat ∧
    (sq < next_queue
            (world (ensure_launched quiet None None (fresh script)).2))%nat ∧
    wandb_process (self (ensure_launched quiet None None (fresh script)).2) =
      Some p ∧
    kw_record_q (w_kwargs p) = rq ∧ kw_result_q (w_kwargs p) = sq ∧
    w_name p = Some "wandb_internal" ∧
    interface (self (ensure_launched quiet None None (fresh script)).2) =
      Some {| s_process := Some p; s_record_q := Some rq;
              s_result_q := Some sq |} ∧
    _internal_pid (self (ensure_launched quiet None None (fresh script)).2) =
      w_pid p ∧
    _done (self (ensure_launched quiet None None (fresh script)).2) =
      _done (self (fresh script)).
Proof.
  apply (launch_consistent quiet None None (fresh script)).
  vm_compute. reflexivity.
Defined.

(** X3: the outside calls of a launch are, in this order, the allocation
    of the record queue, the allocation of the result queue, the
    construction of the worker, its start (between the two log lines) and
    the construction of the sender interface. A launch that raises has made
    an initial part of this sequence; a launch never joins, terminates or
    closes anything. *)
Theorem launch_order env settings ll st :
  ∃ calls k kw pid,
    trace (world (ensure_launched env settings ll st).2) =
      trace (world st) ++ calls ∧
    calls `prefix_of`
      [QueueNew (next_queue (world st));
       QueueNew (S (next_queue (world st)));
       WorkerNew k kw; LogStarting; WorkerStart; LogStarted pid; SenderNew] ∧
    ((ensure_launched env settings ll st).1 = Ok tt →
     calls =
       [QueueNew (next_queue (world st));
        QueueNew (S (next_queue (world st)));
        WorkerNew k kw; LogStarting; WorkerStart; LogStarted pid; SenderNew]).
Proof.
  destruct (launch_trace env settings ll st) as (calls & Ht & Hpre & Hok).
  unfold launch_calls in *. by do 4 eexists.
Qed.

(** X4: a second launch without a teardown in between replaces the queues
    and the worker on the handle. A [cleanup] after it joins one worker and
    closes the second pair of queues; the queues of the first launch are
    never closed, and two workers were started. *)
Theorem double_launch_leaks env s1 l1 s2 l2 st0 st1 st2 st3 :
  _done (self st0) = false →
  ensure_launched env s1 l1 st0 = (Ok tt, st1) →
  ensure_launched env s2 l2 st1 = (Ok tt, st2) →
  cleanup env st2 = (Ok tt, st3) →
  ∃ rq1 sq1 rq2 sq2 calls,
    record_q (self st1) = Some rq1 ∧ result_q (self st1) = Some sq1 ∧
    record_q (self st2) = Some rq2 ∧ result_q (self st2) = Some sq2 ∧
    trace (world st3) = trace (world st0) ++ calls ∧
    closes rq1 calls = 0%nat ∧ closes sq1 calls = 0%nat ∧
    closes rq2 calls = 1%nat ∧ closes sq2 calls = 1%nat ∧
    starts calls = 2%nat ∧ joins calls = 1%nat.
Proof.
  intros Hd H1 H2 H3.
  destruct (launch_state _ _ _ _ _ H1)
    as (p1 & _ & Hd1 & Hrq1 & Hsq1 & _ & _ & _ & _ & Hn1 & Ht1).
  destruct (launch_state _ _ _ _ _ H2)
    as (p2 & Hp2 & Hd2 & Hrq2 & Hsq2 & Hi2 & _ & _ & _ & Hn2 & Ht2).
  assert (Hl : launched (self st2) (next_queue (world st1))
                 (S (next_queue (world st1)))).
  { unfold launched. rewrite Hd2, Hd1, Hrq2, Hsq2, Hp2, Hi2.
    split_and!; try done; try lia; by eexists. }
  destruct (cleanup_ok _ _ _ _ _ Hl H3) as [_ Ht3].
  rewrite Hn1 in *. set (nq := next_queue (world st0)) in *.
  exists nq, (S nq), (S (S nq)), (S (S (S nq))).
  eexists. split_and!; try done.
  { rewrite Ht3, Ht2, Ht1, <- !app_assoc. reflexivity. }
  all: unfold closes, starts, joins, launch_calls, cleanup_steps; simpl.
  all: repeat case_bool_decide; simpl; try done; lia.
Qed.

Lemma double_launch_leaks_witness :
  ∃ rq1 sq1 rq2 sq2 calls,
    record_q (self (ensure_launched quiet None None (fresh script)).2) =
      Some rq1 ∧
    result_q (self (ensure_launched quiet None None (fresh script)).2) =
      Some sq1 ∧
    record_q
      (self (ensure_launched quiet None None
               (ensure_launched quiet None None (fresh script)).2).2) =
      Some rq2 ∧
    result_q
      (self (ensure_launched quiet None None
               (ensure_launched quiet None None (fresh script)).2).2) =
      Some sq2 ∧
    trace (world (cleanup quiet
                    (ensure_launched quiet None None
                       (ensure_launched quiet None None
                          (fresh script)).2).2).2) =
      trace (world (fresh script)) ++ calls ∧
    closes rq1 calls = 0%nat ∧ closes sq1 calls = 0%nat ∧
    closes rq2 calls = 1%nat ∧ closes sq2 calls = 1%nat ∧
    starts calls = 2%nat ∧ joins calls = 1%nat.
Proof.
  apply (double_launch_leaks quiet None None None None (fresh script)
           (ensure_launched quiet None None (fresh script)).2
           (ensure_launched quiet None None
              (ensure_launched quiet None None (fresh script)).2).2);
    vm_compute; reflexivity.
Defined.

(** X5: [ensure_launched] never resets the done flag. On a handle that was
    torn down, a new launch therefore starts a worker that no later call
    joins and allocates queues that no later call closes: [cleanup] returns
    at once, and any sequence of [cleanup] and [abort] calls makes no call
    but [terminate]. *)
Theorem relaunch_after_teardown env settings ll st ops :
  _done (self st) = true →
  _done (self (ensure_launched env settings ll st).2) = true ∧
  cleanup env (ensure_launched env settings ll st).2 =
    (Ok tt, (ensure_launched env settings ll st).2) ∧
  ∃ n, trace (world (run env ops (ensure_launched env settings ll st).2)) =
       trace (world (ensure_launched env settings ll st).2) ++
       replicate n WorkerTerminate.
Proof.
  intros Hd.
  assert (Hd' : _done (self (ensure_launched env settings ll st).2) = true)
    by by rewrite launch_done.
  split_and!; [done|by apply cleanup_done|].
  by destruct (run_done env ops _ Hd') as [_ ?].
Qed.

Lemma relaunch_after_teardown_witness :
  let st := (cleanup quiet (ensure_launched quiet None None (fresh script)).2).2 in
  _done (self (ensure_launched quiet None None st).2) = true ∧
  cleanup quiet (ensure_launched quiet None None st).2 =
    (Ok tt, (ensure_launched quiet None None st).2) ∧
  ∃ n, trace (world (run quiet [OpCleanup; OpAbort]
                       (ensure_launched quiet None None st).2)) =
       trace (world (ensure_launched quiet None None st).2) ++
       replicate n WorkerTerminate.
Proof.
  apply (relaunch_after_teardown quiet None None
           (cleanup quiet (ensure_launched quiet None None (fresh script)).2).2
           [OpCleanup; OpAbort]).
  vm_compute. reflexivity.
Defined.

(** X6: on a handle that was never launched, [abort] raises
    [AttributeError] and changes nothing, while [cleanup] raises
    [AttributeError] without any outside call but has already set the done
    flag: the [cleanup] of every later launch returns at once. *)
Theorem teardown_before_launch env st settings ll :
  wandb_process (self st) = None →
  interface (self st) = None →
  _done (self st) = false →
  abort env st =
    (Raise (AttributeError "'NoneType' object has no attribute 'terminate'"),
     st) ∧
  (cleanup env st).1 =
    Raise (AttributeError "'NoneType' object has no attribute 'join'") ∧
  world (cleanup env st).2 = world st ∧
  _done (self (cleanup env st).2) = true ∧
  cleanup env (ensure_launched env settings ll (cleanup env st).2).2 =
    (Ok tt, (ensure_launched env settings ll (cleanup env st).2).2).
Proof.
  intros Hp Hi Hd.
  assert (Hc : cleanup env st =
    (Raise (AttributeError "'NoneType' object has no attribute 'join'"),
     {| self := {| _done := true; record_q := record_q (self st);
                   result_q := result_q (self st);
                   wandb_process := wandb_process (self st);
                   interface := interface (self st);
                   _internal_pid := _internal_pid (self st) |};
        world := world st |})).
  { unfold cleanup. unfold_m. rewrite Hd. simpl. by rewrite Hi. }
  split_and!.
  - unfold abort, terminate. unfold_m. by rewrite Hp.
  - by rewrite Hc.
  - by rewrite Hc.
  - by rewrite Hc.
  - apply cleanup_done. rewrite launch_done. by rewrite Hc.
Qed.

Lemma teardown_before_launch_witness :
  abort quiet (fresh script) =
    (Raise (AttributeError "'NoneType' object has no attribute 'terminate'"),
     fresh script) ∧
  (cleanup quiet (fresh script)).1 =
    Raise (AttributeError "'NoneType' object has no attribute 'join'") ∧
  world (cleanup quiet (fresh script)).2 = world (fresh script) ∧
  _done (self (cleanup quiet (fresh script)).2) = true ∧
  cleanup quiet
    (ensure_launched quiet None None (cleanup quiet (fresh script)).2).2 =
    (Ok tt,
     (ensure_launched quiet None None (cleanup quiet (fresh script)).2).2).
Proof.
  apply (teardown_before_launch quiet (fresh script) None None); reflexivity.
Defined.

(** X7: a [cleanup] that raises in one of its steps has set the done flag
    before: the steps it did not reach are never made up for, since every
    later [cleanup] or [abort] makes no call but [terminate]. *)
Theorem failed_cleanup_not_retried env st rq sq e ops :
  launched (self st) rq sq →
  (cleanup env st).1 = Raise e →
  _done (self (cleanup env st).2) = true ∧
  (∃ steps, trace (world (cleanup env st).2) = trace (world st) ++ steps ∧
            steps `prefix_of` cleanup_steps rq sq) ∧
  ∃ n, trace (world (run env ops (cleanup env st).2)) =
       trace (world (cleanup env st).2) ++ replicate n WorkerTerminate.
Proof.
  intros Hl _.
  destruct (cleanup_launched env st rq sq Hl) as (steps & Ht & Hpre & _ & _ & Hd).
  split_and!; [done|by exists steps|].
  by destruct (run_done env ops _ Hd) as [_ ?].
Qed.

Lemma failed_cleanup_not_retried_witness :
  let st := (ensure_launched join_fails None None (fresh script)).2 in
  _done (self (cleanup join_fails st).2) = true ∧
  (∃ steps, trace (world (cleanup join_fails st).2) =
              trace (world st) ++ steps ∧
            steps `prefix_of` cleanup_steps 0%nat 1%nat) ∧
  ∃ n, trace (world (run join_fails [OpCleanup; OpCleanup]
                       (cleanup join_fails st).2)) =
       trace (world (cleanup join_fails st).2) ++ replicate n WorkerTerminate.
Proof.
  apply (failed_cleanup_not_retried join_fails
           (ensure_launched join_fails None None (fresh script)).2
           0%nat 1%nat (RuntimeError "broken pipe") [OpCleanup; OpCleanup]).
  - unfold launched. vm_compute.
    split_and!; [reflexivity|reflexivity|reflexivity|discriminate| |];
      eexists; reflexivity.
  - vm_compute. reflexivity.
Defined.

(** After a failed first step nothing was joined or closed, and nothing
    ever is. *)
Example failed_join_closes_nothing :
  let st := (ensure_launched join_fails None None (fresh script)).2 in
  let st' := run join_fails [OpCleanup; OpAbort; OpCleanup] st in
  closes 0%nat (trace (world st')) = 0%nat ∧
  closes 1%nat (trace (world st')) = 0%nat ∧
  joins (trace (world st')) = 0%nat.
Proof. vm_compute. done. Qed.

(** X8: in thread mode [abort] cannot tear the worker down: after a launch
    with the start mode "thread", [abort] raises [AttributeError] and
    leaves the handle and the world as they are, so the worker is not
    joined, no queue is closed and the done flag is not set. *)
Theorem thread_abort_raises env settings ll st st' :
  ensure_launched env settings ll st = (Ok tt, st') →
  default ∅ settings !! "start_method" = Some (VStr "thread") →
  abort env st' =
    (Raise (AttributeError
              "'BackendThread' object has no attribute 'terminate'"), st').
Proof.
  intros H Hth.
  destruct (launch_worker _ _ _ _ _ H) as (p & Hp & _ & Hk).
  apply not_thread_false with (ll := ll) in Hth. rewrite Hth in Hk.
  destruct Hk as [Hk _]. by apply abort_thread_raises with p.
Qed.

Lemma thread_abort_raises_witness :
  abort quiet
    (ensure_launched quiet (Some thread_settings) None (fresh script)).2 =
    (Raise (AttributeError
              "'BackendThread' object has no attribute 'terminate'"),
     (ensure_launched quiet (Some thread_settings) None (fresh script)).2).
Proof.
  apply (thread_abort_raises quiet (Some thread_settings) None (fresh script)).
  - vm_compute. reflexivity.
  - vm_compute. reflexivity.
Defined.

(** X9: the start call of the worker runs under the substituted identity
    of the entry module: when it is the start call that raises, the entry
    module is left with the spec name "wandb.mpmain" if it had a spec name,
    else with the path of the bundled entry file if it had a file path, and
    untouched if it had neither. *)
Theorem start_under_substituted_identity env settings ll st e st' tr :
  ensure_launched env settings ll st = (Raise e, st') →
  trace (world st') = tr ++ [WorkerStart] →
  main_module (world st') = substituted env (main_module (world st)).
Proof.
  launch_cases st; intros H Ht; simplify_eq/=.
  all: try (apply app_inj_tail in Ht as [_ [=]]).
  all: reflexivity.
Qed.

Lemma start_under_substituted_identity_witness :
  main_module
    (world (ensure_launched start_fails None None (fresh package_main)).2) =
  substituted start_fails (main_module (world (fresh package_main))).
Proof.
  apply (start_under_substituted_identity start_fails None None
           (fresh package_main) (OSError "spawn failed") _
           (removelast
              (trace (world (ensure_launched start_fails None None
                               (fresh package_main)).2)))).
  - vm_compute. reflexivity.
  - vm_compute. reflexivity.
Defined.

(** X10: on a launched handle whose worker is a process, [abort] calls
    [terminate] first and then makes the steps of [cleanup]; the calls it
    makes are an initial part of that sequence, and the whole of it when
    [abort] returns. When [terminate] itself raises, [cleanup] is not
    entered and the done flag stays unset. *)
Theorem abort_order env st rq sq p :
  launched (self st) rq sq →
  wandb_process (self st) = Some p →
  w_kind p = MpProcess →
  (∃ steps,
     trace (world (abort env st).2) = trace (world st) ++ steps ∧
     steps `prefix_of`
       [WorkerTerminate; SenderJoin; WorkerJoin; QueueClose rq;
        QueueClose sq] ∧
     ((abort env st).1 = Ok tt →
      steps = [WorkerTerminate; SenderJoin; WorkerJoin; QueueClose rq;
               QueueClose sq])) ∧
  (∀ e, raises env (trace (world st)) WorkerTerminate = Some e →
        (abort env st).1 = Raise e ∧
        self (abort env st).2 = self st ∧
        trace (world (abort env st).2) =
          trace (world st) ++ [WorkerTerminate]).
Proof.
  intros Hl Hp Hk. unfold abort, terminate. unfold_m. rewrite Hp, Hk. simpl.
  destruct (raises env (trace (world st)) WorkerTerminate) as [e|] eqn:Hr;
    simpl.
  - split; [|by intros ? [= <-]].
    exists [WorkerTerminate]. split_and!; [done|by eexists|done].
  - split; [|done].
    set (st1 := {| self := self st;
                   world := record WorkerTerminate (world st) |}).
    destruct (cleanup_launched env st1 rq sq Hl)
      as (steps & Ht & [rest Hrest] & Hok & _).
    exists (WorkerTerminate :: steps). split_and!.
    + rewrite Ht. simpl. by rewrite <- app_assoc.
    + exists rest. unfold cleanup_steps in Hrest. simpl. by rewrite Hrest.
    + intros Hr'. by rewrite (Hok Hr').
Qed.

Lemma abort_order_witness :
  let st := (ensure_launched quiet None None (fresh script)).2 in
  (∃ steps,
     trace (world (abort quiet st).2) = trace (world st) ++ steps ∧
     steps `prefix_of`
       [WorkerTerminate; SenderJoin; WorkerJoin; QueueClose 0%nat;
        QueueClose 1%nat] ∧
     ((abort quiet st).1 = Ok tt →
      steps = [WorkerTerminate; SenderJoin; WorkerJoin; QueueClose 0%nat;
               QueueClose 1%nat])) ∧
  (∀ e, raises quiet (trace (world st)) WorkerTerminate = Some e →
        (abort quiet st).1 = Raise e ∧
        self (abort quiet st).2 = self st ∧
        trace (world (abort quiet st).2) =
          trace (world st) ++ [WorkerTerminate]).
Proof.
  eapply (abort_order quiet
            (ensure_launched quiet None None (fresh script)).2 0%nat 1%nat).
  - unfold launched. vm_compute.
    split_and!; [reflexivity|reflexivity|reflexivity|discriminate| |];
      eexists; reflexivity.
  - vm_compute. reflexivity.
  - reflexivity.
Defined.

End BackendExtra.

(** * Further properties of the IPU statistics *)

Module IPUExtra.
Import IPU IPUVocab IPUFacts.

(** ** Strings *)

Lemma string_app_cons c (a b : string) :
  String c a +:+ b = String c (a +:+ b).
Proof. reflexivity. Qed.

Lemma string_length_app (p m : string) :
  String.length (p +:+ m) = (String.length p + String.length m)%nat.
Proof. induction p as [|c p IH]; simpl; [done|]. by rewrite IH. Qed.

Lemma substring_0_app (p m : string) :
  String.substring 0 (String.length p) (p +:+ m) = p.
Proof.
  induction p as [|c p IH]; simpl; [by destruct m|]. by rewrite IH.
Qed.

Lemma substring_0_length (m : string) :
  String.substring 0 (String.length m) m = m.
Proof. induction m as [|c m IH]; simpl; [done|]. by rewrite IH. Qed.

Lemma substring_skip_app (p m : string) n :
  String.substring (String.length p) n (p +:+ m) = String.substring 0 n m.
Proof. induction p as [|c p IH]; simpl; [done|]. exact IH. Qed.

Lemma substring_split (s : string) k :
  (k ≤ String.length s)%nat →
  s = String.substring 0 k s +:+ String.substring k (String.length s - k) s.
Proof.
  revert k. induction s as [|c s IH]; intros k Hk; simpl in *.
  - destruct k; [done|lia].
  - destruct k as [|k]; simpl.
    + by rewrite substring_0_length.
    + rewrite string_app_cons. f_equal. apply IH. lia.
Qed.

Lemma endswith_app (p m : string) : endswith (p +:+ m) m = true.
Proof.
  unfold endswith. rewrite string_length_app.
  replace (String.length p + String.length m - String.length m)%nat
    with (String.length p) by lia.
  rewrite substring_skip_app, substring_0_length, String.eqb_refl.
  rewrite andb_true_r. apply Nat.leb_le. lia.
Qed.

Lemma endswith_inv (s m : string) :
  endswith s m = true → ∃ p, s = p +:+ m.
Proof.
  unfold endswith. intros [Hle Heq]%andb_true_iff.
  apply Nat.leb_le in Hle. apply String.eqb_eq in Heq.
  exists (String.substring 0 (String.length s - String.length m) s).
  pose proof (substring_split s (String.length s - String.length m)) as Hs.
  replace (String.length s - (String.length s - String.length m))%nat
    with (String.length m) in Hs by lia.
  rewrite Heq in Hs. apply Hs. lia.
Qed.

Lemma drop_last_app (p m : string) : drop_last (String.length m) (p +:+ m) = p.
Proof.
  unfold drop_last. rewrite string_length_app.
  replace (String.length p + String.length m - String.length m)%nat
    with (String.length p) by lia.
  apply substring_0_app.
Qed.

Lemma string_app_eq_inv (a t p m : string) :
  a +:+ t = p +:+ m →
  (∃ k, a = p +:+ k ∧ m = k +:+ t) ∨ (∃ k, p = a +:+ k ∧ t = k +:+ m).
Proof.
  revert p. induction a as [|c a IH]; intros p H.
  - right. by exists p.
  - destruct p as [|d p].
    + left. by exists (String c a).
    + rewrite !string_app_cons in H. injection H as -> H. destruct (IH _ H) as [(k & -> & ->)|(k & -> & ->)].
      * left. by exists k.
      * right. by exists k.
Qed.

Lemma string_app_assoc (a b c : string) : (a +:+ b) +:+ c = a +:+ (b +:+ c).
Proof.
  induction a as [|x a IH]; [done|]. by rewrite !string_app_cons, IH.
Qed.

(** Whether [m] can end a string that ends with [t]. *)
Definition compatible (t m : string) : bool :=
  if (String.length t <=? String.length m)%nat then endswith m t
  else endswith t m.

Lemma endswith_incompatible (a t m : string) :
  compatible t m = false → endswith (a +:+ t) m = false.
Proof.
  intros Hc. destruct (endswith (a +:+ t) m) eqn:He; [|done].
  apply endswith_inv in He as [p Hp]. unfold compatible in Hc.
  destruct (string_app_eq_inv _ _ _ _ Hp) as [(k & _ & ->)|(k & _ & ->)].
  - rewrite string_length_app in Hc.
    rewrite (proj2 (Nat.leb_le _ _)) in Hc by lia.
    by rewrite endswith_app in Hc.
  - destruct (_ <=? _)%nat eqn:Hle.
    + apply Nat.leb_le in Hle. rewrite string_length_app in Hle.
      assert (k = "") as -> by (destruct k; [done|simpl in Hle; lia]).
      change ("" +:+ m) with m in Hc.
      pose proof (endswith_app "" m) as Hm. change ("" +:+ m) with m in Hm.
      congruence.
    + by rewrite endswith_app in Hc.
Qed.

(** ** [parse_metric] *)

(** X11: the loop of [parse_metric] over the table of units does not stop
    at a match, yet at most one unit is moved from the value into the key:
    the result is that of the first entry of the table whose metric name
    ends the key and whose unit ends the value, and that of the key and
    value as they are when there is no such entry. *)
Theorem parse_metric_first_match py_float key value :
  parse_metric py_float key value =
    let '(key', value') :=
      match List.find (λ '(metric, suffix),
                         endswith key metric && endswith value suffix)
                      metric_suffixes with
      | Some (_, suffix) =>
          (key +:+ " (" +:+ suffix +:+ ")",
           drop_last (String.length suffix) value)
      | None => (key, value)
      end in
    match py_float value' with
    | Some float_value =>
        Some (key', match float_to_int float_value with
                    | Some n => PInt n
                    | None => PFloat float_value
                    end)
    | None => None
    end.
Proof.
  unfold parse_metric, metric_suffixes. cbn [foldl List.find].
  repeat (match goal with
    | |- context [endswith key ?m && endswith value ?s] =>
        destruct (endswith key m && endswith value s);
        [cbv beta iota;
         repeat (rewrite endswith_incompatible by reflexivity;
                 cbv beta iota delta [andb]);
         reflexivity|cbv beta iota]
    end).
  reflexivity.
Qed.

(** X12: for every entry of the table of units, a key that ends with the
    metric name and a value that carries the unit are parsed by moving the
    unit into the key: the number is read from the value without its unit,
    and nothing is returned when that is not a number. *)
Theorem parse_metric_unit py_float metric suffix p v :
  (metric, suffix) ∈ metric_suffixes →
  parse_metric py_float (p +:+ metric) (v +:+ suffix) =
    match py_float v with
    | Some float_value =>
        Some ((p +:+ metric) +:+ " (" +:+ suffix +:+ ")",
              match float_to_int float_value with
              | Some n => PInt n
              | None => PFloat float_value
              end)
    | None => None
    end.
Proof.
  unfold metric_suffixes. intros Hin.
  repeat (apply elem_of_cons in Hin as [[= -> ->]|Hin];
    [unfold parse_metric, metric_suffixes; cbn [foldl];
     repeat (first [rewrite !endswith_app
                   |rewrite endswith_incompatible by reflexivity];
             cbv beta iota delta [andb]);
     by rewrite (drop_last_app v)|]).
  by apply elem_of_nil in Hin.
Qed.

Lemma parse_metric_unit_witness :
  parse_metric (λ s, if String.eqb s "45.5" then Some 45.5%float else None)
    ("average board " +:+ "temp") ("45.5" +:+ "C") =
  Some ("average board temp (C)", PFloat 45.5).
Proof.
  rewrite (parse_metric_unit _ "temp" "C" "average board " "45.5").
  - vm_compute. reflexivity.
  - unfold metric_suffixes. apply elem_of_cons. by left.
Defined.

(** ** [sample] *)

Lemma sample_metrics_keys py_float id initial items stats :
  ipu_keys stats → ipu_keys (sample_metrics py_float id initial items stats).
Proof.
  revert stats. induction items as [|[key value] items IH]; intros stats Hs;
    [done|]. simpl.
  destruct (negb _); [by apply IH|].
  destruct (parse_metric py_float key value) as [[pk pv]|]; [|by apply IH].
  apply IH. apply map_Forall_insert_2; [by eexists|done].
Qed.

Lemma sample_devices_inv py_int py_float ds stats self :
  let r := sample_devices py_int py_float ds stats self in
  samples r.2 = samples self ∧ _pid r.2 = _pid self ∧
  _devices_called self ⊆ _devices_called r.2 ∧
  (ipu_keys stats → ∀ stats', r.1 = Ok stats' → ipu_keys stats').
Proof.
  revert stats self. induction ds as [|d ds IH]; intros stats self; simpl.
  { split_and!; try done. by intros ? ? [= <-]. }
  destruct (get d "user process id") as [pid|]; [|apply IH].
  destruct (py_int pid) as [n|]; [|by split_and!].
  destruct (negb (n =? _pid self)); [apply IH|].
  match goal with
  | |- context [sample_devices _ _ ds ?st ?sf] =>
      destruct (IH st sf) as (H1 & H2 & H3 & H4)
  end.
  split_and!.
  - rewrite H1. by destruct (get d "id").
  - rewrite H2. by destruct (get d "id").
  - etrans; [|exact H3].
    destruct (get d "id"); simpl; [apply union_subseteq_r|done].
  - intros Hs. apply H4. by apply sample_metrics_keys.
Qed.

(** X13: a call to [sample] keeps the process id of the sampler, never
    forgets a device it has seen, and leaves the buffered samples in place:
    it either appends exactly one sample, all of whose keys begin with
    "ipu.", and prints nothing, or it appends nothing. *)
Theorem sample_bookkeeping py_int py_float devices self t :
  let r := sample py_int py_float devices (self, t) in
  _pid r.2.1 = _pid self ∧
  _devices_called self ⊆ _devices_called r.2.1 ∧
  (samples r.2.1 = samples self ∨
   ∃ stats, samples r.2.1 = samples self ++ [stats] ∧ r.2.2 = t ∧
            ∀ key, is_Some (stats !! key) → ∃ rest, key = "ipu." +:+ rest).
Proof.
  unfold sample, try_except, sample_body.
  destruct devices as [ds|e]; simpl; [|by split_and!; [..|left]].
  destruct (sample_devices_inv py_int py_float ds ∅ self) as (H1 & H2 & H3 & H4).
  destruct (sample_devices py_int py_float ds ∅ self) as [[stats|e] s1];
    simpl in *.
  - split_and!; [done|done|]. right. exists stats. rewrite H1.
    split_and!; [done|done|].
    intros key [v Hv]. by apply (H4 (map_Forall_empty _) stats eq_refl key v).
  - split_and!; [done|done|by left].
Qed.


Lemma sample_devices_foreign py_int py_float ds stats self :
  Forall (foreign py_int (_pid self)) ds →
  sample_devices py_int py_float ds stats self = (Ok stats, self).
Proof.
  induction 1 as [|d ds Hd _ IH]; [done|]. simpl. unfold foreign in Hd.
  destruct (get d "user process id") as [pid|]; [|exact IH].
  destruct Hd as (n & -> & Hn).
  by rewrite (proj2 (Z.eqb_neq _ _) Hn).
Qed.

Lemma serialize_empty_first later : serialize (∅ :: later) = Ok ∅.
Proof. unfold serialize. by rewrite dom_empty_L, elements_empty. Qed.

(** X15: when none of the devices is used by the process of the sampler,
    [sample] still buffers a sample, the empty one, and touches nothing
    else. If that sample is the first of the buffer, [serialize] returns
    the empty mapping whatever the later samples hold. *)
Theorem foreign_devices_ignored py_int py_float ds self t later :
  Forall (foreign py_int (_pid self)) ds →
  sample py_int py_float (Ok ds) (self, t) =
    (Ok tt, ({| samples := samples self ++ [∅]; _pid := _pid self;
                _devices_called := _devices_called self |}, t)) ∧
  serialize (∅ :: later) = Ok ∅.
Proof.
  intros Hf. split; [|apply serialize_empty_first].
  unfold sample, try_except, sample_body.
  by rewrite (sample_devices_foreign _ _ _ _ _ Hf).
Qed.

Lemma foreign_devices_ignored_witness :
  sample (λ s, if String.eqb s "41" then Some 41 else None) (λ _, None)
    (Ok [[("id", "0"); ("user process id", "41"); ("clock", "1300MHz")];
         [("id", "1")]])
    ({| samples := []; _pid := 7; _devices_called := ∅ |},
     {| printed := []; seen := ∅ |}) =
    (Ok tt, ({| samples := [] ++ [∅]; _pid := 7; _devices_called := ∅ |},
             {| printed := []; seen := ∅ |})) ∧
  serialize (∅ :: temp_samples) = Ok ∅.
Proof.
  apply (foreign_devices_ignored
           (λ s, if String.eqb s "41" then Some 41 else None) (λ _, None)
           [[("id", "0"); ("user process id", "41"); ("clock", "1300MHz")];
            [("id", "1")]]
           {| samples := []; _pid := 7; _devices_called := ∅ |}).
  repeat constructor. exists 41. split; [reflexivity|discriminate].
Defined.

(** ** [serialize] *)

Lemma serialize_loop_ext samples1 samples2 keys stats :
  (∀ key, key ∈ keys → values_of key samples1 = values_of key samples2) →
  serialize_loop samples1 keys stats = serialize_loop samples2 keys stats.
Proof.
  revert stats. induction keys as [|k keys IH]; intros stats Hv; [done|].
  simpl. rewrite (Hv k) by (apply elem_of_cons; by left).
  destruct (aggregate (values_of k samples2)); [|done]. simpl.
  apply IH. intros key Hk. apply Hv. apply elem_of_cons. by right.
Qed.

Lemma values_of_cons key (s : Sample) (l : list Sample) :
  values_of key (s :: l) =
  match s !! key with
  | Some v => v :: values_of key l
  | None => values_of key l
  end.
Proof. reflexivity. Qed.

Lemma values_of_app key (l1 l2 : list Sample) :
  values_of key (l1 ++ l2) = values_of key l1 ++ values_of key l2.
Proof. unfold values_of. apply omap_app. Qed.

(** X16: a buffered sample that has none of the keys of the first sample
    does not count: with or without it, [serialize] gives the same
    result. *)
Theorem serialize_ignores_unrelated first before s after :
  (∀ key, is_Some (first !! key) → s !! key = None) →
  serialize (first :: before ++ s :: after) =
  serialize (first :: before ++ after).
Proof.
  intros Hs. unfold serialize. apply serialize_loop_ext.
  intros key Hk%elem_of_elements%elem_of_dom.
  change (first :: before ++ s :: after)
    with ([first] ++ before ++ [s] ++ after).
  change (first :: before ++ after) with ([first] ++ before ++ after).
  rewrite !values_of_app. do 2 f_equal.
  change ([s] ++ after) with (s :: after).
  by rewrite values_of_cons, (Hs key Hk).
Qed.

Lemma serialize_ignores_unrelated_witness :
  serialize ({[ "a" := PInt 1 ]} :: [ {[ "a" := PInt 2; "b" := PInt 5 ]} ]
             ++ {[ "b" := PInt 9 ]} :: []) =
  serialize ({[ "a" := PInt 1 ]} :: [ {[ "a" := PInt 2; "b" := PInt 5 ]} ]
             ++ []).
Proof.
  apply (serialize_ignores_unrelated {[ "a" := PInt 1 ]}
           [ {[ "a" := PInt 2; "b" := PInt 5 ]} ] {[ "b" := PInt 9 ]} []).
  intros key [v Hv]. apply lookup_singleton_Some in Hv as [<- _].
  vm_compute. reflexivity.
Defined.

Lemma values_of_floats key samples :
  all_floats samples → ∃ fs, values_of key samples = PFloat <$> fs.
Proof.
  induction samples as [|s samples IH]; intros Hall; [by exists []|].
  destruct IH as [fs Hfs].
  { intros s' k v Hin. apply Hall. apply elem_of_cons. by right. }
  rewrite values_of_cons. destruct (s !! key) as [v|] eqn:Hk.
  - destruct (Hall s key v) as [f ->]; [apply elem_of_cons; by left|done|].
    exists (f :: fs). by rewrite Hfs.
  - by exists fs.
Qed.

(** X17: on a buffer in which every value is a float, [serialize] does not
    raise: it returns a mapping with the keys of the first sample. *)
Theorem serialize_floats_returns first rest :
  all_floats (first :: rest) →
  ∃ stats, serialize (first :: rest) = Ok stats ∧ dom stats = dom first.
Proof.
  intros Hall.
  destruct (proj1 (serialize_returns first rest)) as [stats Hs].
  - intros key [v Hv].
    destruct (values_of_floats key (first :: rest) Hall) as [fs Hfs].
    rewrite Hfs. destruct fs as [|f fs].
    + rewrite values_of_cons, Hv in Hfs. discriminate.
    + destruct (aggregate_floats f fs) as [g Hg]. by exists (PFloat g).
  - exists stats. split; [done|]. by apply dom_serialize with rest.
Qed.

Lemma serialize_floats_returns_witness :
  ∃ stats,
    serialize [ {[ "t" := PFloat 0.5 ]}; {[ "t" := PFloat 1.5 ]} ] = Ok stats ∧
    dom stats = dom ({[ "t" := PFloat 0.5 ]} : Sample).
Proof.
  apply (serialize_floats_returns {[ "t" := PFloat 0.5 ]}
           [ {[ "t" := PFloat 1.5 ]} ]).
  intros s key v Hin Hv.
  apply elem_of_cons in Hin as [->|Hin];
    [|apply elem_of_cons in Hin as [->|Hin]; [|by apply elem_of_nil in Hin]].
  - apply lookup_singleton_Some in Hv as [_ <-]. by eexists.
  - apply lookup_singleton_Some in Hv as [_ <-]. by eexists.
Defined.

(** ** [clear] *)



End IPUExtra.

(** * Properties of the printers *)

Module PrinterFacts.
Import Printer PrinterVocab.

(** X19: [display] hands each buffer that holds a line to its sink once and
    leaves the three buffers empty, in the terminal and in the notebook
    alike: a [display] that follows at once prints nothing. *)
Theorem display_flushes self :
  (display_term self).2 = no_buffers ∧
  length (display_term self).1 = filled self ∧
  display_term (display_term self).2 = ([], no_buffers) ∧
  (display_jupyter self).2 = no_buffers ∧
  length (display_jupyter self).1 = filled self ∧
  display_jupyter (display_jupyter self).2 = ([], no_buffers).
Proof.
  destruct self as [[|i info] [|w warnings] [|e errors]]; by split_and!.
Qed.

Lemma spinner_lookup taken :
  ∃ symbol, spinner !! (taken mod length spinner)%nat = Some symbol.
Proof.
  apply lookup_lt_is_Some. apply Nat.mod_upper_bound. done.
Qed.

Lemma progress_updates_lookup texts taken i text :
  texts !! i = Some text →
  progress_updates texts taken !! i =
    Some (Termlog (default "" (spinner !! ((taken + i) mod 4)%nat)
                   +:+ " " +:+ text) false).
Proof.
  revert taken i. induction texts as [|t texts IH]; intros taken i Hi;
    [done|].
  destruct i as [|i]; simpl in *.
  - injection Hi as ->. by rewrite Nat.add_0_r.
  - rewrite (IH _ _ Hi). by replace (S taken + i)%nat with (taken + S i)%nat by lia.
Qed.

(** X20: the progress line of the terminal turns through "-", "\", "|" and
    "/": the update number [i] of a printer that has made [taken] updates
    before shows the symbol number [(taken + i) mod 4], followed by a space
    and the text, so the symbols repeat every fourth update. *)
Theorem progress_symbols texts taken i text :
  texts !! i = Some text →
  ∃ symbol,
    spinner !! ((taken + i) mod 4)%nat = Some symbol ∧
    progress_updates texts taken !! i =
      Some (Termlog (symbol +:+ " " +:+ text) false) ∧
    progress_updates texts (taken + 4) !! i =
      Some (Termlog (symbol +:+ " " +:+ text) false).
Proof.
  intros Hi. destruct (spinner_lookup (taken + i)) as [symbol Hs].
  change (length spinner) with 4%nat in Hs.
  exists symbol. split; [done|].
  rewrite !(progress_updates_lookup _ _ _ _ Hi).
  replace (taken + 4 + i)%nat with (taken + i + 1 * 4)%nat by lia.
  rewrite Nat.Div0.mod_add. by rewrite Hs.
Qed.

Lemma progress_symbols_witness :
  ∃ symbol,
    spinner !! ((2 + 1) mod 4)%nat = Some symbol ∧
    progress_updates ["uploading"; "syncing"] 2 !! 1%nat =
      Some (Termlog (symbol +:+ " " +:+ "syncing") false) ∧
    progress_updates ["uploading"; "syncing"] (2 + 4) !! 1%nat =
      Some (Termlog (symbol +:+ " " +:+ "syncing") false).
Proof.
  apply (progress_symbols ["uploading"; "syncing"] 2 1 "syncing").
  reflexivity.
Defined.

(** ** Grids *)

Lemma comprehension_Forall2 {A B} (f : A → outcome B) l ys :
  comprehension f l = Returns ys →
  Forall2 (λ x y, f x = Returns y) l ys.
Proof.
  revert ys. induction l as [|x l IH]; intros ys H; simpl in H.
  - injection H as <-. constructor.
  - destruct (f x) as [y|] eqn:Hx; [|done]. simpl in H.
    destruct (comprehension f l) as [ys'|]; [|done]. simpl in H.
    injection H as <-. constructor; [done|]. by apply IH.
Qed.

Lemma comprehension_returns {A B} (f : A → outcome B) l :
  Forall (λ x, ∃ y, f x = Returns y) l →
  ∃ ys, comprehension f l = Returns ys.
Proof.
  induction 1 as [|x l [y Hy] _ [ys IH]]; [by eexists|].
  simpl. rewrite Hy. simpl. rewrite IH. by eexists.
Qed.

Lemma comprehension_fails {A B} (f : A → outcome B) l e :
  (∀ x e', f x = Fails e' → e' = e) →
  ¬ Forall (λ x, ∃ y, f x = Returns y) l →
  comprehension f l = Fails e.
Proof.
  intros He. induction l as [|x l IH]; intros Hn.
  - destruct Hn. constructor.
  - simpl. destruct (f x) as [y|e'] eqn:Hx; simpl.
    + rewrite IH; [done|]. intros Hl. apply Hn. constructor; [by eexists|done].
    + by rewrite (He x e' Hx).
Qed.

Lemma foldl_max_le n l : (n ≤ foldl Nat.max n l)%nat.
Proof.
  revert n. induction l as [|x l IH]; intros n; simpl; [done|].
  etrans; [|apply IH]. lia.
Qed.

Lemma foldl_max_ge n l x : x ∈ l → (x ≤ foldl Nat.max n l)%nat.
Proof.
  revert n. induction l as [|y l IH]; intros n Hx; simpl.
  - by apply elem_of_nil in Hx.
  - apply elem_of_cons in Hx as [->|Hx]; [|by apply IH].
    etrans; [|apply foldl_max_le]. lia.
Qed.

Lemma foldl_max_elem n l : foldl Nat.max n l ∈ n :: l.
Proof.
  revert n. induction l as [|y l IH]; intros n; simpl.
  - apply elem_of_cons. by left.
  - specialize (IH (n `max` y)%nat).
    apply elem_of_cons in IH as [IH|IH].
    + rewrite IH. destruct (Nat.max_spec n y) as [[_ ->]|[_ ->]].
      * apply elem_of_cons. right. apply elem_of_cons. by left.
      * apply elem_of_cons. by left.
    + apply elem_of_cons. right. apply elem_of_cons. by right.
Qed.

(** The comprehension of the lengths of the first cells. *)
Lemma first_lengths rows :
  Forall (λ row, row ≠ []) rows →
  comprehension (λ row, cell ← first_cell row; Returns (len cell))
    rows =
  Returns ((λ row, len (default "" (head row))) <$> rows).
Proof.
  induction 1 as [|row rows Hrow _ IH]; [done|].
  simpl. destruct row as [|cell cells]; [done|]. simpl. by rewrite IH.
Qed.

Lemma first_lengths_fails rows :
  ¬ Forall (λ row, row ≠ []) rows →
  comprehension (λ row, cell ← first_cell row; Returns (len cell))
    rows = Fails IndexOutOfRange.
Proof.
  intros Hn. apply comprehension_fails.
  - intros [|cell cells] e'; simpl; [by intros [= <-]|done].
  - intros Hall. apply Hn. eapply Forall_impl; [exact Hall|].
    intros [|cell cells] [y Hy]; done.
Qed.

Lemma grid_term_cons first rest title :
  Forall (λ row : list string, row ≠ []) (first :: rest) →
  grid_term (first :: rest) title =
    lines ← comprehension
              (format_term_row (first_width first rest) (length first))
              (first :: rest);
    Returns match title_given title with
            | Some title => title +:+ LF +:+ join LF lines +:+ LF
            | None => join LF lines +:+ LF
            end.
Proof.
  intros Hne. unfold grid_term. by rewrite first_lengths.
Qed.

(** X21: [PrinterTerm.grid] raises [ValueError] on an empty list of rows.
    On other lists it returns exactly when every row has a first cell and
    at least as many cells as the first row, and raises [IndexError]
    otherwise, whatever the title. *)
Theorem grid_term_returns title :
  grid_term [] title = Fails MaxOfEmpty ∧
  ∀ first rest,
    (Forall (row_fits (length first)) (first :: rest) →
     ∃ text, grid_term (first :: rest) title = Returns text) ∧
    (¬ Forall (row_fits (length first)) (first :: rest) →
     grid_term (first :: rest) title = Fails IndexOutOfRange).
Proof.
  split; [done|]. intros first rest. split.
  - intros Hfit.
    rewrite grid_term_cons
      by (eapply Forall_impl; [exact Hfit|]; by intros ? [? _]).
    destruct (comprehension_returns
                (format_term_row (first_width first rest) (length first))
                (first :: rest)) as [lines Hl].
    { eapply Forall_impl; [exact Hfit|]. intros row [Hne Hlen].
      unfold format_term_row.
      rewrite (proj2 (Nat.ltb_ge _ _) Hlen).
      destruct row; [done|by eexists]. }
    rewrite Hl. by eexists.
  - intros Hn.
    destruct (decide (Forall (λ row : list string, row ≠ []) (first :: rest)))
      as [Hne|Hne];
      [|unfold grid_term; by rewrite first_lengths_fails].
    rewrite grid_term_cons by done.
    rewrite (comprehension_fails _ _ IndexOutOfRange); [done| |].
    + intros row e'. unfold format_term_row.
      destruct (_ <? _)%nat; [by intros [= <-]|].
      destruct row; [by intros [= <-]|done].
    + intros Hall. apply Hn. apply Forall_forall. intros row Hin.
      rewrite Forall_forall in Hall, Hne.
      split; [by apply Hne|]. destruct (Hall row Hin) as [y Hy].
      unfold format_term_row in Hy.
      destruct (_ <? _)%nat eqn:Hlt; [done|]. by apply Nat.ltb_ge in Hlt.
Qed.

Lemma grid_term_returns_witness :
  ∃ text, grid_term (["a"; "1"; "x"] :: [["bbb"; "22"; "y"; "extra"]]) None =
          Returns text.
Proof.
  apply (proj2 (grid_term_returns None) ["a"; "1"; "x"]
           [["bbb"; "22"; "y"; "extra"]]).
  repeat constructor; simpl; try done; lia.
Defined.

Lemma format_rows_aligned w n rows lines :
  Forall2 (λ row line, format_term_row w n row = Returns line) rows lines →
  (∀ row, row ∈ rows → (len (default "" (head row)) ≤ w)%nat) →
  Forall2 (aligned w n) rows lines.
Proof.
  induction 1 as [|row line rows lines Hrow _ IH]; intros Hw; constructor.
  - unfold format_term_row in Hrow.
    destruct (_ <? _)%nat; [done|].
    destruct row as [|cell cells]; [done|]. injection Hrow as <-.
    exists cell, cells. split_and!; [done| |done].
    apply (Hw (cell :: cells)). apply elem_of_cons. by left.
  - apply IH. intros r Hr. apply Hw. apply elem_of_cons. by right.
Qed.

(** X22: when [PrinterTerm.grid] returns, its text is the title, if one is
    given, and one line per row, each followed by a line feed. The first
    cells are right-aligned in a column as wide as the longest of them,
    widths being counted as [len] counts them, in code points; then come
    a space and the other cells without separator, as many as the first
    row has, so further cells of a longer row are left out. *)
Theorem grid_term_aligned rows title text :
  grid_term rows title = Returns text →
  ∃ w lines,
    text = match title_given title with
           | Some title => title +:+ LF +:+ join LF lines +:+ LF
           | None => join LF lines +:+ LF
           end ∧
    Forall2 (aligned w (length (default [] (head rows)))) rows lines ∧
    Exists (λ row, ∃ cell cells,
                     row = cell :: cells ∧ len cell = w) rows.
Proof.
  intros H.
  destruct rows as [|first rest]; [done|].
  destruct (decide (Forall (λ row : list string, row ≠ []) (first :: rest)))
    as [Hne|Hne];
    [|unfold grid_term in H; by rewrite first_lengths_fails in H].
  rewrite grid_term_cons in H by done.
  destruct (comprehension
              (format_term_row (first_width first rest) (length first))
              (first :: rest)) as [lines|] eqn:Hl; [|done].
  cbn [mbind outcome_bind] in H. injection H as <-.
  exists (first_width first rest), lines. split; [done|]. split.
  - apply comprehension_Forall2 in Hl.
    assert (Hw : ∀ row, row ∈ first :: rest →
                 (len (default "" (head row))
                  ≤ first_width first rest)%nat).
    { intros row [->|Hin]%elem_of_cons; [apply foldl_max_le|].
      apply foldl_max_ge. by apply (list_elem_of_fmap_2
        (λ row, len (default "" (head row)))). }
    by apply format_rows_aligned.
  - pose proof (foldl_max_elem (len (default "" (head first)))
        ((λ row, len (default "" (head row))) <$> rest)) as Hin.
    change (foldl _ _ _) with (first_width first rest) in Hin.
    change (len (default "" (head first)) ::
            ((λ row, len (default "" (head row))) <$> rest))
      with ((λ row, len (default "" (head row))) <$> first :: rest)
      in Hin.
    apply list_elem_of_fmap in Hin as (row & Hlen & Hrow).
    apply Exists_exists. exists row. split; [done|].
    rewrite Forall_forall in Hne. specialize (Hne row Hrow).
    destruct row as [|cell cells]; [done|]. by exists cell, cells.
Qed.

Lemma grid_term_aligned_witness :
  ∃ w lines,
    "bbb 2" +:+ LF +:+ "  a 1" +:+ LF =
      match title_given None with
      | Some title => title +:+ LF +:+ join LF lines +:+ LF
      | None => join LF lines +:+ LF
      end ∧
    Forall2 (aligned w (length (default [] (head [["bbb"; "2"]; ["a"; "1"]]))))
      [["bbb"; "2"]; ["a"; "1"]] lines ∧
    Exists (λ row, ∃ cell cells,
                     row = cell :: cells ∧ len cell = w)
      [["bbb"; "2"]; ["a"; "1"]].
Proof.
  apply (grid_term_aligned [["bbb"; "2"]; ["a"; "1"]] None
           ("bbb 2" +:+ LF +:+ "  a 1" +:+ LF)).
  vm_compute. reflexivity.
Defined.

(** A first cell outside ASCII is padded by its length in code points:
    [PrinterTerm().grid([["é", "1"], ["ab", "2"]])] is [" é 1\nab 2\n"]. *)
Example grid_term_code_points :
  len "é" = 1%nat ∧
  grid_term [["é"; "1"]; ["ab"; "2"]] None =
    Returns (" é 1" +:+ LF +:+ "ab 2" +:+ LF).
Proof. split; vm_compute; reflexivity. Qed.

End PrinterFacts.
